(** * Appointment booking backend (src/main.py): model and properties

    The FastAPI handlers of [src/main.py] are embedded as functions over an
    explicit document store.  A handler takes the collection as it is before
    the request and returns its response together with the collection after
    the request; an exception raised by the Python code is a [Raise] result,
    and the store is returned as it was when the exception was raised.

    Values not computed by the handlers themselves are inputs of the model:
    the clock ([datetime.utcnow()]), the identifier assigned by the store on
    insert, and the configured [ADMIN_SECRET]. *)

From Stdlib Require Import ZArith Lia Ascii String Sorted.
From stdpp Require Import gmap strings list fin_maps.

(** ** Exceptions and results *)

Inductive Exn :=
  | HTTPException (status_code : Z)
  | ValidationError
  | AttributeError
  | KeyError
  | IndexError
  | TypeError
  | InvalidId.

Inductive result (A : Type) :=
  | Ok (a : A)
  | Raise (e : Exn).
Arguments Ok {A} a.
Arguments Raise {A} e.

#[global] Instance result_ret : MRet result := @Ok.
#[global] Instance result_bind : MBind result := λ A B f r,
  match r with
  | Ok a => f a
  | Raise e => Raise e
  end.

#[global] Instance Exn_eq_dec : EqDecision Exn.
Proof. solve_decision. Defined.

(** ** Text helpers ([str.lower], [str.startswith], [str.split(sep, 1)]) *)

Definition lower_ascii (c : ascii) : ascii :=
  let n := N_of_ascii c in
  if ((65 <=? n) && (n <=? 90))%N then ascii_of_N (n + 32) else c.

Fixpoint lower (s : string) : string :=
  match s with
  | EmptyString => EmptyString
  | String c r => String (lower_ascii c) (lower r)
  end.

Fixpoint startswith (s p : string) {struct p} : bool :=
  match p with
  | EmptyString => true
  | String c p' =>
      match s with
      | EmptyString => false
      | String c' s' => Ascii.eqb c' c && startswith s' p'
      end
  end.

(** [s.split(sep, 1)]: at most one cut, at the first occurrence of [sep]. *)
Fixpoint split1 (sep : ascii) (s : string) : list string :=
  match s with
  | EmptyString => [EmptyString]
  | String c r =>
      if Ascii.eqb c sep then [EmptyString; r]
      else match split1 sep r with
           | h :: t => String c h :: t
           | [] => []
           end
  end.

(** ** Admin gate (main.py, [admin_required]) *)

(** [ADMIN_SECRET = os.getenv("ADMIN_SECRET", "demo-admin-secret")] *)
Definition getenv_ADMIN_SECRET (env : option string) : string :=
  default "demo-admin-secret"%string env.

Definition admin_required (ADMIN_SECRET : string) (authorization : option string)
  : result bool :=
  match authorization with
  | None => Raise (HTTPException 401)
  | Some a =>
      if String.eqb a "" || negb (startswith (lower a) "bearer ")
      then Raise (HTTPException 401)
      else
        match split1 " "%char a !! 1%nat with
        | None => Raise IndexError
        | Some token =>
            if negb (String.eqb token ADMIN_SECRET)
            then Raise (HTTPException 403)
            else Ok true
        end
  end.

(** ** Datetimes

    A [datetime] value as Python has it: the civil fields and an optional
    [tzinfo], given by its UTC offset in microseconds ([None] is a naive
    value). *)

Record datetime := mk_datetime {
  year : Z; month : Z; day : Z;
  hour : Z; minute : Z; second : Z; microsecond : Z;
  tzinfo : option Z
}.

#[global] Instance datetime_eq_dec : EqDecision datetime.
Proof. solve_decision. Defined.

(** [dt.replace(second=s, microsecond=us)] *)
Definition replace_second_microsecond (dt : datetime) (s us : Z) : datetime :=
  {| year := year dt; month := month dt; day := day dt;
     hour := hour dt; minute := minute dt; second := s; microsecond := us;
     tzinfo := tzinfo dt |}.


(** *** Printing: [datetime.isoformat] *)

Definition digit_char (d : Z) : ascii := ascii_of_N (48 + Z.to_N d).

(** ["%0wd" % z] for [0 <= z < 10^w], the range of every field printed
    below: exactly [w] digits. *)
Fixpoint zfill_acc (w : nat) (z : Z) (acc : string) : string :=
  match w with
  | O => acc
  | S w' => zfill_acc w' (z / 10) (String (digit_char (z mod 10)) acc)
  end.

Definition zfill (w : nat) (z : Z) : string := zfill_acc w z "".

(** ["%04d-%02d-%02d"] *)
Definition format_date (y m d : Z) : string :=
  zfill 4 y +:+ "-" +:+ zfill 2 m +:+ "-" +:+ zfill 2 d.

(** [_format_time] with [timespec='auto'] *)
Definition format_time (hh mm ss us : Z) : string :=
  zfill 2 hh +:+ ":" +:+ zfill 2 mm +:+ ":" +:+ zfill 2 ss +:+
  (if (us =? 0)%Z then "" else "." +:+ zfill 6 us).

(** [_format_offset]: the offset is split into hours, minutes, seconds and
    microseconds of its absolute value. *)
Definition format_offset (off : option Z) : string :=
  match off with
  | None => ""
  | Some o =>
      let sign := if (o <? 0)%Z then "-" else "+" in
      let a := Z.abs o in
      let hh := (a / 3600000000)%Z in
      let r := (a mod 3600000000)%Z in
      let mm := (r / 60000000)%Z in
      let ss := (r mod 60000000)%Z in
      sign +:+ zfill 2 hh +:+ ":" +:+ zfill 2 mm +:+
      (if (ss =? 0)%Z then ""
       else ":" +:+ zfill 2 (ss / 1000000) +:+
            (if (ss mod 1000000 =? 0)%Z then ""
             else "." +:+ zfill 6 (ss mod 1000000)))
  end.

Definition isoformat_sep (sep : ascii) (dt : datetime) : string :=
  format_date (year dt) (month dt) (day dt) +:+ String sep "" +:+
  format_time (hour dt) (minute dt) (second dt) (microsecond dt) +:+
  format_offset (tzinfo dt).

Definition isoformat (dt : datetime) : string := isoformat_sep "T" dt.

(** *** Parsing: [datetime.fromisoformat]

    The format accepted by Python 3.7 to 3.10,
    [YYYY-MM-DD[*HH[:MM[:SS[.fff[fff]]]][+HH:MM[:SS[.ffffff]]]]], where [*]
    is any single character.  [None] stands for the [ValueError] raised on
    any other text, or on fields out of range. *)

Definition is_digit (c : ascii) : bool :=
  let n := N_of_ascii c in ((48 <=? n) && (n <=? 57))%N.

Definition digit_val (c : ascii) : Z := Z.of_N (N_of_ascii c) - 48.

(** read exactly [n] decimal digits *)
Fixpoint parse_digits (n : nat) (s : string) (acc : Z) : option (Z * string) :=
  match n with
  | O => Some (acc, s)
  | S n' =>
      match s with
      | EmptyString => None
      | String c r =>
          if is_digit c then parse_digits n' r (acc * 10 + digit_val c) else None
      end
  end.

(** read the character [c] *)
Definition expect (c : ascii) (s : string) : option string :=
  match s with
  | EmptyString => None
  | String c' r => if Ascii.eqb c' c then Some r else None
  end.

Definition parse_isoformat_date (s : string) : option (Z * Z * Z * string) :=
  '(y, s) ← parse_digits 4 s 0;
  s ← expect "-" s;
  '(m, s) ← parse_digits 2 s 0;
  s ← expect "-" s;
  '(d, s) ← parse_digits 2 s 0;
  Some (y, m, d, s).

(** the fraction: three or six digits, to the end of the text *)
Definition parse_fraction (t : string) : option Z :=
  if (String.length t =? 3)%nat then
    '(f, _) ← parse_digits 3 t 0; Some (f * 1000)%Z
  else if (String.length t =? 6)%nat then
    '(f, _) ← parse_digits 6 t 0; Some f
  else None.

(** [HH[:MM[:SS[.fff[fff]]]]], to the end of the text *)
Definition parse_hh_mm_ss_ff (t : string) : option (Z * Z * Z * Z) :=
  '(hh, t) ← parse_digits 2 t 0;
  match t with
  | EmptyString => Some (hh, 0, 0, 0)%Z
  | String c t =>
      if negb (Ascii.eqb c ":") then None else
      '(mm, t) ← parse_digits 2 t 0;
      match t with
      | EmptyString => Some (hh, mm, 0, 0)%Z
      | String c t =>
          if negb (Ascii.eqb c ":") then None else
          '(ss, t) ← parse_digits 2 t 0;
          match t with
          | EmptyString => Some (hh, mm, ss, 0)%Z
          | String c t =>
              if negb (Ascii.eqb c ".") then None else
              us ← parse_fraction t;
              Some (hh, mm, ss, us)
          end
      end
  end.

Definition is_sign (c : ascii) : bool := Ascii.eqb c "+" || Ascii.eqb c "-".

(** cut the text at its first sign character, if it has one *)
Fixpoint split_tz (t : string) : string * option (ascii * string) :=
  match t with
  | EmptyString => (EmptyString, None)
  | String c r =>
      if is_sign c then (EmptyString, Some (c, r))
      else let '(h, z) := split_tz r in (String c h, z)
  end.

Definition parse_isoformat_time (t : string)
  : option (Z * Z * Z * Z * option Z) :=
  let '(timestr, tz) := split_tz t in
  '(hh, mm, ss, us) ← parse_hh_mm_ss_ff timestr;
  match tz with
  | None => Some (hh, mm, ss, us, None)
  | Some (sign, tzstr) =>
      let n := String.length tzstr in
      if negb ((n =? 5) || (n =? 8) || (n =? 15))%nat then None else
      '(zh, zm, zs, zus) ← parse_hh_mm_ss_ff tzstr;
      let off := (((zh * 3600 + zm * 60 + zs) * 1000000) + zus)%Z in
      Some (hh, mm, ss, us, Some (if Ascii.eqb sign "-" then (- off)%Z else off))
  end.

Definition is_leap (y : Z) : bool :=
  ((y mod 4 =? 0) && (negb (y mod 100 =? 0) || (y mod 400 =? 0)))%Z.

Definition days_in_month (y m : Z) : Z :=
  if (m =? 2)%Z then (if is_leap y then 29 else 28)%Z
  else if ((m =? 4) || (m =? 6) || (m =? 9) || (m =? 11))%Z then 30%Z
  else 31%Z.

(** the range checks of the [date] constructor *)
Definition check_date_fields (y m d : Z) : bool :=
  ((1 <=? y) && (y <=? 9999) && (1 <=? m) && (m <=? 12) &&
   (1 <=? d) && (d <=? days_in_month y m))%Z.

(** the range checks of the [time] fields *)
Definition check_time_fields (hh mm ss us : Z) : bool :=
  ((0 <=? hh) && (hh <=? 23) && (0 <=? mm) && (mm <=? 59) &&
   (0 <=? ss) && (ss <=? 59) && (0 <=? us) && (us <=? 999999))%Z.

(** a [timezone] offset lies strictly between -24h and +24h *)
Definition check_tzinfo (tz : option Z) : bool :=
  match tz with
  | None => true
  | Some o => ((-86400000000 <? o) && (o <? 86400000000))%Z
  end.

Definition fromisoformat (s : string) : option datetime :=
  '(y, m, d, rest) ← parse_isoformat_date s;
  '(hh, mm, ss, us, tz) ←
    match rest with
    | EmptyString => Some (0, 0, 0, 0, None)%Z
    | String _ tstr =>
        match tstr with
        | EmptyString => Some (0, 0, 0, 0, None)%Z
        | _ => parse_isoformat_time tstr
        end
    end;
  if check_date_fields y m d && check_time_fields hh mm ss us && check_tzinfo tz
  then Some (mk_datetime y m d hh mm ss us tz)
  else None.


(** ** Store identifiers ([bson.ObjectId])

    An identifier is twelve bytes; it is kept here as its canonical text,
    the twenty-four lower-case hexadecimal digits that [str] prints.
    [ObjectId(s)] accepts a text of twenty-four hexadecimal digits in either
    case and raises [InvalidId] on any other. *)

Inductive ObjectId := Oid (hex : string).

#[global] Instance ObjectId_eq_dec : EqDecision ObjectId.
Proof. solve_decision. Defined.

Definition is_hex (c : ascii) : bool :=
  let n := N_of_ascii c in
  (((48 <=? n) && (n <=? 57)) || ((97 <=? n) && (n <=? 102)) ||
   ((65 <=? n) && (n <=? 70)))%N.

Fixpoint all_hex (s : string) : bool :=
  match s with
  | EmptyString => true
  | String c r => is_hex c && all_hex r
  end.

Definition ObjectId_is_valid (s : string) : bool :=
  (String.length s =? 24)%nat && all_hex s.

Definition ObjectId_new (s : string) : result ObjectId :=
  if ObjectId_is_valid s then Ok (Oid (lower s)) else Raise InvalidId.

Definition str_ObjectId (o : ObjectId) : string :=
  match o with Oid h => h end.

(** ** Documents and the store

    A document is a dictionary from field names to values, as the driver
    hands it to Python.  The collection is the list of its documents in
    insertion order. *)

Inductive Value :=
  | VNull
  | VStr (s : string)
  | VDate (d : datetime)
  | VId (o : ObjectId).

#[global] Instance Value_eq_dec : EqDecision Value.
Proof. solve_decision. Defined.

Abbreviation doc := (gmap string Value).
Abbreviation store := (list (gmap string Value)).

(** [str(v)] *)
Definition str_Value (v : Value) : string :=
  match v with
  | VNull => "None"
  | VStr s => s
  | VDate d => isoformat_sep " " d
  | VId o => str_ObjectId o
  end.

(** *** Order of stored dates: field by field *)

Definition lex (c1 c2 : comparison) : comparison :=
  match c1 with Eq => c2 | _ => c1 end.

Definition compare_fields (a b : datetime) : comparison :=
  lex (year a ?= year b)%Z
 (lex (month a ?= month b)%Z
 (lex (day a ?= day b)%Z
 (lex (hour a ?= hour b)%Z
 (lex (minute a ?= minute b)%Z
 (lex (second a ?= second b)%Z
      (microsecond a ?= microsecond b)%Z))))).

Definition datetime_leb (a b : datetime) : bool :=
  match compare_fields a b with Gt => false | _ => true end.

(** *** Query documents

    The conditions the handlers use: [{k: v}], [{k: {"$ne": v}}] and
    [{k: {"$gte": lo, "$lte": hi}}] on dates.  A query document is the
    conjunction of its entries. *)

Inductive Cond :=
  | Is (v : Value)
  | Ne (v : Value)
  | Between (lo hi : datetime).

Definition cond_holds (c : Cond) (field : option Value) : bool :=
  match c with
  | Is v => bool_decide (field = Some v)
  | Ne v => negb (bool_decide (field = Some v))
  | Between lo hi =>
      match field with
      | Some (VDate d) => datetime_leb lo d && datetime_leb d hi
      | _ => false
      end
  end.

Definition matches (q : list (string * Cond)) (d : doc) : bool :=
  forallb (λ kc, cond_holds kc.2 (d !! kc.1)) q.

(** [collection.find_one(q)] *)
Definition find_one (q : list (string * Cond)) (db : store) : option doc :=
  List.find (matches q) db.

(** [list(collection.find(q))] *)
Definition find (q : list (string * Cond)) (db : store) : list doc :=
  List.filter (matches q) db.

(** [collection.insert_one(d)] *)
Definition insert_one (d : doc) (db : store) : store := db ++ [d].

(** [collection.delete_one(q)]: the number of documents deleted (0 or 1)
    and the collection afterwards. *)
Fixpoint delete_one (q : list (string * Cond)) (db : store) : Z * store :=
  match db with
  | [] => (0%Z, [])
  | d :: r =>
      if matches q d then (1%Z, r)
      else let '(n, r') := delete_one q r in (n, d :: r')
  end.

(** [collection.find_one_and_update(q, {"$set": updates},
    return_document=True)]: the first matching document gets every entry of
    [updates], and is returned as it is after the update. *)
Fixpoint find_one_and_update (q : list (string * Cond)) (updates : doc)
    (db : store) : option doc * store :=
  match db with
  | [] => (None, [])
  | d :: r =>
      if matches q d then (Some (updates ∪ d), (updates ∪ d) :: r)
      else let '(res, r') := find_one_and_update q updates r in (res, d :: r')
  end.

(** *** Sort order of [find().sort(key, 1)]

    Values of different kinds are ordered by kind (null or missing first,
    then text, identifiers, dates); the sort is stable. *)

Definition value_rank (v : option Value) : Z :=
  match v with
  | None | Some VNull => 0
  | Some (VStr _) => 1
  | Some (VId _) => 2
  | Some (VDate _) => 3
  end.

Definition value_leb (a b : option Value) : bool :=
  match a, b with
  | Some (VStr x), Some (VStr y) =>
      match String.compare x y with Gt => false | _ => true end
  | Some (VId x), Some (VId y) =>
      match String.compare (str_ObjectId x) (str_ObjectId y) with
      | Gt => false
      | _ => true
      end
  | Some (VDate x), Some (VDate y) => datetime_leb x y
  | _, _ => (value_rank a <=? value_rank b)%Z
  end.

Fixpoint insert_sorted (k : string) (d : doc) (l : list doc) : list doc :=
  match l with
  | [] => [d]
  | e :: r =>
      if value_leb (e !! k) (d !! k) then e :: insert_sorted k d r
      else d :: l
  end.

Definition sort_ascending (k : string) (l : list doc) : list doc :=
  foldl (λ acc d, insert_sorted k d acc) [] l.

(** ** Request and response models (pydantic)

    A payload is the model after validation; the length, pattern and
    address checks of the fields are pydantic's and happen before a handler
    runs.  An e-mail address is kept as its text. *)

Module AppointmentCreate.
Record t := mk {
  first_name : string;
  last_name : string;
  email : string;
  phone : string;
  datetime_iso : datetime;
  location : string;
  notes : option string
}.
End AppointmentCreate.

(** A field of a partial update: left out of the request body, or given,
    possibly as [null]. *)
Inductive Field (A : Type) :=
  | Unset
  | Given (v : option A).
Arguments Unset {A}.
Arguments Given {A} v.

Module AppointmentUpdate.
Record t := mk {
  first_name : Field string;
  last_name : Field string;
  email : Field string;
  phone : Field string;
  datetime_iso : Field datetime;
  location : Field string;
  status : Field string;
  notes : Field string
}.
End AppointmentUpdate.

Module AppointmentOut.
Record t := mk {
  id : string;
  first_name : string;
  last_name : string;
  email : string;
  phone : string;
  datetime_iso : datetime;
  location : string;
  status : string;
  notes : option string;
  created_at : option datetime;
  updated_at : option datetime
}.
End AppointmentOut.

Definition dump_field {A} (k : string) (inj : A → Value) (f : Field A)
    (m : doc) : doc :=
  match f with
  | Unset => m
  | Given None => <[k := VNull]> m
  | Given (Some v) => <[k := inj v]> m
  end.

(** [payload.model_dump(exclude_unset=True)] *)
Definition model_dump_exclude_unset (p : AppointmentUpdate.t) : doc :=
  dump_field "first_name" VStr (AppointmentUpdate.first_name p)
 (dump_field "last_name" VStr (AppointmentUpdate.last_name p)
 (dump_field "email" VStr (AppointmentUpdate.email p)
 (dump_field "phone" VStr (AppointmentUpdate.phone p)
 (dump_field "datetime_iso" VDate (AppointmentUpdate.datetime_iso p)
 (dump_field "location" VStr (AppointmentUpdate.location p)
 (dump_field "status" VStr (AppointmentUpdate.status p)
 (dump_field "notes" VStr (AppointmentUpdate.notes p) ∅))))))).

Definition required_str (d : doc) (k : string) : result string :=
  match d !! k with
  | Some (VStr s) => Ok s
  | _ => Raise ValidationError
  end.

Definition required_datetime (d : doc) (k : string) : result datetime :=
  match d !! k with
  | Some (VDate x) => Ok x
  | _ => Raise ValidationError
  end.

Definition optional_str (d : doc) (k : string) : result (option string) :=
  match d !! k with
  | None | Some VNull => Ok None
  | Some (VStr s) => Ok (Some s)
  | _ => Raise ValidationError
  end.

Definition optional_datetime (d : doc) (k : string)
  : result (option datetime) :=
  match d !! k with
  | None | Some VNull => Ok None
  | Some (VDate x) => Ok (Some x)
  | _ => Raise ValidationError
  end.

(** [AppointmentOut] built from the entries of a document: keys that are
    not fields of the model are ignored; a required field that is missing, or [null], is a validation
    error. *)
Definition AppointmentOut_new (d : doc) : result AppointmentOut.t :=
  id ← required_str d "id";
  first_name ← required_str d "first_name";
  last_name ← required_str d "last_name";
  email ← required_str d "email";
  phone ← required_str d "phone";
  datetime_iso ← required_datetime d "datetime_iso";
  location ← required_str d "location";
  status ← required_str d "status";
  notes ← optional_str d "notes";
  created_at ← optional_datetime d "created_at";
  updated_at ← optional_datetime d "updated_at";
  Ok (AppointmentOut.mk id first_name last_name email phone datetime_iso
        location status notes created_at updated_at).

(** [d["id"] = str(d.pop("_id"))] *)
Definition pop_id (d : doc) : result doc :=
  match d !! "_id" with
  | None => Raise KeyError
  | Some v => Ok (<["id" := VStr (str_Value v)]> (delete "_id" d))
  end.

(** the response shaping shared by the handlers: rename [_id], validate *)
Definition respond (d : doc) : result AppointmentOut.t :=
  d' ← pop_id d; AppointmentOut_new d'.

(** ** Collaborators outside main.py *)

(** Modelled from the spec: [schemas.Appointment] is imported by main.py
    and not part of it.  The spec gives the entity its fields and makes
    [status] default to booked on creation; [model_dump] returns them as a
    dictionary. *)
Definition AppointmentSchema_model_dump (first_name last_name email
    phone : string) (datetime_iso : datetime) (location : string)
    (notes : option string) : doc :=
  <["first_name" := VStr first_name]>
 (<["last_name" := VStr last_name]>
 (<["email" := VStr email]>
 (<["phone" := VStr phone]>
 (<["datetime_iso" := VDate datetime_iso]>
 (<["location" := VStr location]>
 (<["status" := VStr "booked"]>
 (<["notes" := from_option VStr VNull notes]> ∅))))))).

(** Modelled from the spec: [database.create_document] is imported by
    main.py and not part of it.  The spec has the store layer set the
    timestamps on insert and assign the identifier, which is returned as
    text. *)
Definition create_document (now : datetime) (new_id : ObjectId) (data : doc)
    (db : store) : string * store :=
  let d := <["_id" := VId new_id]>
          (<["created_at" := VDate now]>
          (<["updated_at" := VDate now]> data)) in
  (str_ObjectId new_id, insert_one d db).

(** ** Handlers (main.py, routes) *)

(** the projection [{k: 1}] of a query: [_id] and the field [k] *)
Definition project (k : string) (d : doc) : doc :=
  let keep k' (m : doc) :=
    match d !! k' with Some v => <[k' := v]> m | None => m end in
  keep "_id" (keep k ∅).

Fixpoint mapM {A B} (f : A → result B) (l : list A) : result (list B) :=
  match l with
  | [] => Ok []
  | a :: r => b ← f a; bs ← mapM f r; Ok (b :: bs)
  end.

(** [e["datetime_iso"].isoformat()] *)
Definition isoformat_of (e : doc) : result string :=
  match e !! "datetime_iso" with
  | None => Raise KeyError
  | Some (VDate d) => Ok (isoformat d)
  | Some _ => Raise AttributeError
  end.

(** [GET /api/appointments] *)
Definition list_appointments (_ : bool) (db : store)
  : result (list AppointmentOut.t) * store :=
  let docs := sort_ascending "datetime_iso" (find [] db) in
  (mapM respond docs, db).

(** [GET /api/availability]: the list under the key [occupied] *)
Definition check_availability (date : string) (db : store)
  : result (list string) * store :=
  match fromisoformat (date +:+ "T00:00:00"),
        fromisoformat (date +:+ "T23:59:59.999999") with
  | Some start, Some end_ =>
      let exists_ :=
        project "datetime_iso" <$>
        find [("datetime_iso", Between start end_);
              ("status", Ne (VStr "canceled"))] db in
      (mapM isoformat_of exists_, db)
  | _, _ => (Raise (HTTPException 400), db)
  end.

(** [POST /api/appointments] *)
Definition create_appointment (now : datetime) (new_id : ObjectId)
    (payload : AppointmentCreate.t) (db : store)
  : result AppointmentOut.t * store :=
  let dt := AppointmentCreate.datetime_iso payload in
  let dt := replace_second_microsecond dt 0 0 in
  let dup := find_one [("datetime_iso", Is (VDate dt));
                       ("status", Ne (VStr "canceled"))] db in
  match dup with
  | Some _ => (Raise (HTTPException 409), db)
  | None =>
      let data := AppointmentSchema_model_dump
        (AppointmentCreate.first_name payload)
        (AppointmentCreate.last_name payload)
        (AppointmentCreate.email payload)
        (AppointmentCreate.phone payload)
        dt
        (if String.eqb (AppointmentCreate.location payload) ""
         then "Mourenx" else AppointmentCreate.location payload)
        (AppointmentCreate.notes payload) in
      let '(inserted_id, db) := create_document now new_id data db in
      (oid ← ObjectId_new inserted_id;
       match find_one [("_id", Is (VId oid))] db with
       | None => Raise AttributeError
       | Some saved => respond saved
       end, db)
  end.

(** the slot-conflict guard of [update_appointment]: the entry
    [datetime_iso] of [updates], when given and not [null], is truncated
    and looked up among the other documents *)
Definition guard_updates (oid : ObjectId) (updates : doc) (db : store)
  : result doc :=
  match updates !! "datetime_iso" with
  | None | Some VNull => Ok updates
  | Some (VDate d) =>
      let d' := replace_second_microsecond d 0 0 in
      let updates := <["datetime_iso" := VDate d']> updates in
      match find_one [("_id", Ne (VId oid));
                      ("datetime_iso", Is (VDate d'));
                      ("status", Ne (VStr "canceled"))] db with
      | Some _ => Raise (HTTPException 409)
      | None => Ok updates
      end
  | Some _ => Raise TypeError
  end.

(** [PATCH /api/appointments/{appointment_id}] *)
Definition update_appointment (now : datetime) (appointment_id : string)
    (payload : AppointmentUpdate.t) (_ : bool) (db : store)
  : result AppointmentOut.t * store :=
  match ObjectId_new appointment_id with
  | Raise _ => (Raise (HTTPException 400), db)
  | Ok oid =>
      let updates := model_dump_exclude_unset payload in
      match guard_updates oid updates db with
      | Raise e => (Raise e, db)
      | Ok updates =>
          let updates := <["updated_at" := VDate now]> updates in
          match find_one_and_update [("_id", Is (VId oid))] updates db with
          | (None, db) => (Raise (HTTPException 404), db)
          | (Some res, db) => (respond res, db)
          end
      end
  end.

(** [DELETE /api/appointments/{appointment_id}] *)
Definition delete_appointment (appointment_id : string) (_ : bool)
    (db : store) : result bool * store :=
  match ObjectId_new appointment_id with
  | Raise _ => (Raise (HTTPException 400), db)
  | Ok oid =>
      let '(deleted_count, db) := delete_one [("_id", Is (VId oid))] db in
      if (deleted_count =? 0)%Z then (Raise (HTTPException 404), db)
      else (Ok true, db)
  end.

(** [Depends(admin_required)]: the dependency runs before the handler; an
    exception it raises is the response, and the handler does not run. *)
Definition Depends_admin_required {A} (ADMIN_SECRET : string)
    (authorization : option string)
    (handler : bool → store → result A * store) (db : store)
  : result A * store :=
  match admin_required ADMIN_SECRET authorization with
  | Raise e => (Raise e, db)
  | Ok ok => handler ok db
  end.

Definition GET_appointments (ADMIN_SECRET : string)
    (authorization : option string) :=
  Depends_admin_required ADMIN_SECRET authorization list_appointments.

Definition PATCH_appointment (ADMIN_SECRET : string)
    (authorization : option string) (now : datetime)
    (appointment_id : string) (payload : AppointmentUpdate.t) :=
  Depends_admin_required ADMIN_SECRET authorization
    (update_appointment now appointment_id payload).

Definition DELETE_appointment (ADMIN_SECRET : string)
    (authorization : option string) (appointment_id : string) :=
  Depends_admin_required ADMIN_SECRET authorization
    (delete_appointment appointment_id).

(** ** Further code of main.py *)



(** [GET /]: the body *)
Definition read_root : string := "ILENAI Nail'Z API is running".

(** [GET /test].  The handle [db] of the database module is [None] or a
    database object: whether it has an attribute [name] and its value, and
    what [list_collection_names()] does (the names, or an exception given
    by its text [str(e)]).  The environment is the function [getenv].  A
    character of a text is one [ascii]. *)
Record Database := mk_Database {
  db_name : option string;
  db_list_collection_names : string + list string
}.

Record TestResponse := mk_TestResponse {
  backend : string;
  database : string;
  database_url : option string;
  database_name : option string;
  connection_status : string;
  collections : list string
}.

(** truth value of [os.getenv(k)]: set, and not the empty text *)
Definition getenv_truthy (getenv : string → option string) (k : string)
  : bool :=
  match getenv k with
  | Some v => negb (String.eqb v "")
  | None => false
  end.

Definition test_database (db : option Database)
    (getenv : string → option string) : TestResponse :=
  let response :=
    mk_TestResponse "✅ Running" "❌ Not Available" None None
      "Not Connected" [] in
  let response :=
    match db with
    | Some db =>
        let response :=
          mk_TestResponse (backend response) "✅ Available"
            (Some "✅ Configured")
            (Some (default "✅ Connected" (db_name db)))
            "Connected" (collections response) in
        match db_list_collection_names db with
        | inr names =>
            mk_TestResponse (backend response) "✅ Connected & Working"
              (database_url response) (database_name response)
              (connection_status response) (take 10 names)
        | inl e =>
            mk_TestResponse (backend response)
              ("⚠️  Connected but Error: " +:+ String.substring 0 50 e)
              (database_url response) (database_name response)
              (connection_status response) (collections response)
        end
    | None =>
        mk_TestResponse (backend response)
          "⚠️  Available but not initialized"
          (database_url response) (database_name response)
          (connection_status response) (collections response)
    end in
  let response :=
    mk_TestResponse (backend response) (database response)
      (Some (if getenv_truthy getenv "DATABASE_URL"
             then "✅ Set" else "❌ Not Set"))
      (database_name response)
      (connection_status response) (collections response) in
  mk_TestResponse (backend response) (database response)
    (database_url response)
    (Some (if getenv_truthy getenv "DATABASE_NAME"
           then "✅ Set" else "❌ Not Set"))
    (connection_status response) (collections response).

(** * Vocabulary of the properties *)

(** the header carries the bearer token [token]: a scheme that reads
    "bearer" in any letter case, one space, the token *)
Definition carries_bearer (a token : string) : Prop :=
  ∃ scheme, a = scheme +:+ " " +:+ token ∧ lower scheme = "bearer".


(** the appointment is not canceled *)
Definition active (d : doc) : Prop := d !! "status" ≠ Some (VStr "canceled").

(** the appointment's stored datetime is [dt] *)
Definition slot_of (d : doc) (dt : datetime) : Prop :=
  d !! "datetime_iso" = Some (VDate dt).

(** the appointment's identifier is [oid] *)
Definition has_id (d : doc) (oid : ObjectId) : Prop :=
  d !! "_id" = Some (VId oid).

(** an identifier the store may assign on insert into [db]: it prints as
    text that reads back as itself, and no document of [db] has it *)
Definition assignable (new_id : ObjectId) (db : store) : Prop :=
  ObjectId_new (str_ObjectId new_id) = Ok new_id ∧
  ∀ d, d ∈ db → ¬ has_id d new_id.

(** minute precision: seconds and microseconds set to zero *)
Definition truncated (dt : datetime) : datetime :=
  {| year := year dt; month := month dt; day := day dt;
     hour := hour dt; minute := minute dt; second := 0; microsecond := 0;
     tzinfo := tzinfo dt |}.

(** the document [create_appointment] hands to the store for a payload,
    with the identifier and the timestamps the store layer adds *)
Definition created_doc (now : datetime) (new_id : ObjectId)
    (p : AppointmentCreate.t) : doc :=
  <["_id" := VId new_id]>
 (<["created_at" := VDate now]>
 (<["updated_at" := VDate now]>
 (<["first_name" := VStr (AppointmentCreate.first_name p)]>
 (<["last_name" := VStr (AppointmentCreate.last_name p)]>
 (<["email" := VStr (AppointmentCreate.email p)]>
 (<["phone" := VStr (AppointmentCreate.phone p)]>
 (<["datetime_iso" :=
      VDate (truncated (AppointmentCreate.datetime_iso p))]>
 (<["location" :=
      VStr (if String.eqb (AppointmentCreate.location p) ""
            then "Mourenx" else AppointmentCreate.location p)]>
 (<["status" := VStr "booked"]>
 (<["notes" := from_option VStr VNull (AppointmentCreate.notes p)]>
    ∅)))))))))).

(** the representation returned for it *)
Definition created_out (now : datetime) (new_id : ObjectId)
    (p : AppointmentCreate.t) : AppointmentOut.t :=
  AppointmentOut.mk (str_ObjectId new_id)
    (AppointmentCreate.first_name p) (AppointmentCreate.last_name p)
    (AppointmentCreate.email p) (AppointmentCreate.phone p)
    (truncated (AppointmentCreate.datetime_iso p))
    (if String.eqb (AppointmentCreate.location p) ""
     then "Mourenx" else AppointmentCreate.location p)
    "booked" (AppointmentCreate.notes p) (Some now) (Some now).

(** the value a partial update supplies for a field, if it supplies one *)
Definition entry {A} (inj : A → Value) (f : Field A) : option Value :=
  match f with
  | Unset => None
  | Given None => Some VNull
  | Given (Some v) => Some (inj v)
  end.

(** the payload of a partial update read as a partial map from field names
    to the values supplied *)
Definition payload_entry (p : AppointmentUpdate.t) (k : string)
  : option Value :=
  if decide (k = "first_name") then entry VStr (AppointmentUpdate.first_name p)
  else if decide (k = "last_name") then entry VStr (AppointmentUpdate.last_name p)
  else if decide (k = "email") then entry VStr (AppointmentUpdate.email p)
  else if decide (k = "phone") then entry VStr (AppointmentUpdate.phone p)
  else if decide (k = "datetime_iso")
       then entry VDate (AppointmentUpdate.datetime_iso p)
  else if decide (k = "location") then entry VStr (AppointmentUpdate.location p)
  else if decide (k = "status") then entry VStr (AppointmentUpdate.status p)
  else if decide (k = "notes") then entry VStr (AppointmentUpdate.notes p)
  else None.

(** the entries a partial update writes into the appointment once the
    guard has let it through: the supplied fields, a supplied datetime at
    minute precision, and [updated_at] *)
Definition written (now : datetime) (p : AppointmentUpdate.t) (k : string)
  : option Value :=
  if decide (k = "updated_at") then Some (VDate now)
  else match payload_entry p k with
       | Some (VDate dt) => Some (VDate (truncated dt))
       | w => w
       end.

(** no appointment other than [oid] that is not canceled has the slot [t] *)
Definition slot_free_for (oid : ObjectId) (t : datetime) (db : store) : Prop :=
  ∀ e, e ∈ db → ¬ has_id e oid → slot_of e t → ¬ active e.

(** no appointment that is not canceled has the slot [t] *)
Definition slot_free (t : datetime) (db : store) : Prop :=
  ∀ e, e ∈ db → slot_of e t → ¬ active e.

(** the dictionary handed to [$set] once the guard has let the update
    through *)
Definition set_document (now : datetime) (p : AppointmentUpdate.t) : doc :=
  <["updated_at" := VDate now]>
    match AppointmentUpdate.datetime_iso p with
    | Given (Some dt) =>
        <["datetime_iso" := VDate (truncated dt)]> (model_dump_exclude_unset p)
    | _ => model_dump_exclude_unset p
    end.


Definition is_text (v : option Value) : Prop := ∃ s, v = Some (VStr s).
Definition is_date (v : option Value) : Prop := ∃ x, v = Some (VDate x).
Definition text_or_null (v : option Value) : Prop :=
  v = None ∨ v = Some VNull ∨ is_text v.
Definition date_or_null (v : option Value) : Prop :=
  v = None ∨ v = Some VNull ∨ is_date v.

(** an appointment as the handlers create it: an identifier and every
    required field of the output representation *)
Definition presentable (d : doc) : Prop :=
  is_Some (d !! "_id") ∧
  is_text (d !! "first_name") ∧ is_text (d !! "last_name") ∧
  is_text (d !! "email") ∧ is_text (d !! "phone") ∧
  is_date (d !! "datetime_iso") ∧
  is_text (d !! "location") ∧ is_text (d !! "status") ∧
  text_or_null (d !! "notes") ∧
  date_or_null (d !! "created_at") ∧ date_or_null (d !! "updated_at").

(** a partial update that sets no required field to [null] *)
Definition keeps_required (p : AppointmentUpdate.t) : Prop :=
  AppointmentUpdate.first_name p ≠ Given None ∧
  AppointmentUpdate.last_name p ≠ Given None ∧
  AppointmentUpdate.email p ≠ Given None ∧
  AppointmentUpdate.phone p ≠ Given None ∧
  AppointmentUpdate.datetime_iso p ≠ Given None ∧
  AppointmentUpdate.location p ≠ Given None ∧
  AppointmentUpdate.status p ≠ Given None.

(** the appointment is canceled *)
Definition canceled (d : doc) : Prop := d !! "status" = Some (VStr "canceled").

(** ** Data of the worked examples *)

Definition at_2024_05_01 (hh mm ss : Z) (tz : option Z) : datetime :=
  mk_datetime 2024 5 1 hh mm ss 0 tz.

Definition clock : datetime := mk_datetime 2024 4 30 9 15 0 0 None.

Definition id_a : ObjectId := Oid "65f0a1b2c3d4e5f601234567".
Definition id_b : ObjectId := Oid "65f0a1b2c3d4e5f601234568".

(** the create request of the spec's example *)
Definition ana (dt : datetime) : AppointmentCreate.t :=
  AppointmentCreate.mk "Ana" "B" "a@x.com" "0600000000" dt "Mourenx" None.

(** the store after that request, sent at 10:00:30 *)
Definition booked_at_ten : store :=
  [created_doc clock id_a (ana (at_2024_05_01 10 0 30 None))].

(** a partial update that supplies nothing *)
Definition no_change : AppointmentUpdate.t :=
  AppointmentUpdate.mk Unset Unset Unset Unset Unset Unset Unset Unset.

Definition set_datetime (f : Field datetime) : AppointmentUpdate.t :=
  AppointmentUpdate.mk Unset Unset Unset Unset f Unset Unset Unset.

Definition set_status (s : string) : AppointmentUpdate.t :=
  AppointmentUpdate.mk Unset Unset Unset Unset Unset Unset (Given (Some s))
    Unset.

(** a second appointment, at 11:00 *)
Definition two_bookings : store :=
  [created_doc clock id_a (ana (at_2024_05_01 10 0 30 None));
   created_doc clock id_b (ana (at_2024_05_01 11 0 0 None))].


(** a well-formed store key: twenty-four hexadecimal digits *)
Definition hex_digits : list ascii :=
  list_ascii_of_string "0123456789abcdefABCDEF".

Definition well_formed_key (s : string) : Prop :=
  String.length s = 24%nat ∧
  ∀ c, In c (list_ascii_of_string s) → In c hex_digits.

(** ** Calendar dates and days *)

Definition valid_date (y m d : Z) : Prop :=
  (1 ≤ y ≤ 9999 ∧ 1 ≤ m ≤ 12 ∧ 1 ≤ d ≤ days_in_month y m)%Z.

(** [s] is the text YYYY-MM-DD of the calendar date [y]-[m]-[d] *)
Definition is_calendar_date (s : string) (y m d : Z) : Prop :=
  valid_date y m d ∧ s = format_date y m d.

Definition day_start (y m d : Z) : datetime :=
  mk_datetime y m d 0 0 0 0 None.

Definition day_end (y m d : Z) : datetime :=
  mk_datetime y m d 23 59 59 999999 None.

(** [dt] lies in the inclusive range from the first to the last
    microsecond of the day *)
Definition in_day (y m d : Z) (dt : datetime) : Prop :=
  datetime_leb (day_start y m d) dt = true ∧
  datetime_leb dt (day_end y m d) = true.

#[global] Instance active_dec (e : doc) : Decision (active e).
Proof. unfold active. apply _. Defined.

(** the stored datetimes, in store order, of the appointments that are not
    canceled and whose datetime lies in the day *)
Definition occupied_on (y m d : Z) (db : store) : list datetime :=
  omap (λ e : doc,
          match e !! "datetime_iso" with
          | Some (VDate dt) =>
              if bool_decide (active e) &&
                 datetime_leb (day_start y m d) dt &&
                 datetime_leb dt (day_end y m d)
              then Some dt else None
          | _ => None
          end) db.

(** ** Invariants of the store *)

(** no two documents have the same identifier *)
Definition unique_ids (db : store) : Prop :=
  ∀ i j e1 e2 o,
    db !! i = Some e1 → db !! j = Some e2 →
    has_id e1 o → has_id e2 o → i = j.

(** no two appointments that are not canceled have the same stored
    datetime *)
Definition no_double_booking (db : store) : Prop :=
  ∀ i j e1 e2 t,
    db !! i = Some e1 → db !! j = Some e2 →
    slot_of e1 t → slot_of e2 t → active e1 → active e2 → i = j.

(** the order of the sort on documents that have a date under the key *)
Definition le_on (k : string) (a b : doc) : Prop :=
  value_leb (a !! k) (b !! k) = true.

(** * Properties *)

Lemma replace_truncated dt : replace_second_microsecond dt 0 0 = truncated dt.
Proof. reflexivity. Qed.

(** ** Admin gate *)

Lemma lower_ascii_space c : lower_ascii c = " "%char → c = " "%char.
Proof.
  destruct c as [[] [] [] [] [] [] [] []]; vm_compute; congruence.
Qed.

Lemma lower_ascii_eqb_space c x :
  lower_ascii c = x → x ≠ " "%char → Ascii.eqb c " " = false.
Proof.
  intros Hc Hx. apply Ascii.eqb_neq. intros ->. apply Hx. rewrite <- Hc.
  reflexivity.
Qed.

Lemma carries_bearer_split a tok :
  carries_bearer a tok →
  String.eqb a "" = false ∧ startswith (lower a) "bearer " = true ∧
  split1 " " a !! 1%nat = Some tok.
Proof.
  intros (scheme & -> & Hs).
  do 7 (destruct scheme as [|? scheme]; try discriminate Hs).
  simpl in Hs. injection Hs as H1 H2 H3 H4 H5 H6.
  split; [reflexivity|]. split.
  - simpl. rewrite H1, H2, H3, H4, H5, H6. reflexivity.
  - simpl.
    rewrite (lower_ascii_eqb_space _ _ H1), (lower_ascii_eqb_space _ _ H2),
      (lower_ascii_eqb_space _ _ H3), (lower_ascii_eqb_space _ _ H4),
      (lower_ascii_eqb_space _ _ H5), (lower_ascii_eqb_space _ _ H6)
      by discriminate.
    reflexivity.
Qed.

Lemma startswith_bearer a :
  startswith (lower a) "bearer " = true → ∃ tok, carries_bearer a tok.
Proof.
  intros H.
  do 7 (destruct a as [|? a]; simpl in H;
        [repeat (apply andb_prop in H as [_ H]); discriminate H|]).
  repeat (apply andb_prop in H; destruct H as [?E H]).
  repeat match goal with E : Ascii.eqb _ _ = true |- _ => apply Ascii.eqb_eq in E end.
  exists a, (String a0 (String a1 (String a2 (String a3 (String a4 (String a5 "")))))).
  split.
  - simpl. apply lower_ascii_space in E5. by subst.
  - simpl. congruence.
Qed.

(** C7. On the admin-gated endpoints (list, update, delete): a request
    whose Authorization header is absent, or carries no bearer token, fails
    with 401; one whose bearer token differs from the configured secret
    fails with 403; one whose bearer token is the secret proceeds to the
    handler.  A request the gate rejects leaves the store as it was. *)
Theorem admin_gate (ADMIN_SECRET : string) (authorization : option string)
    (db : store) (now : datetime) (appointment_id : string)
    (payload : AppointmentUpdate.t) :
  let gate := admin_required ADMIN_SECRET authorization in
  ((authorization = None ∨
    ∃ a, authorization = Some a ∧ ∀ tok, ¬ carries_bearer a tok) →
   gate = Raise (HTTPException 401)) ∧
  (∀ a tok, authorization = Some a → carries_bearer a tok →
     tok ≠ ADMIN_SECRET → gate = Raise (HTTPException 403)) ∧
  (∀ a, authorization = Some a → carries_bearer a ADMIN_SECRET →
     gate = Ok true) ∧
  (∀ e, gate = Raise e →
     GET_appointments ADMIN_SECRET authorization db = (Raise e, db) ∧
     PATCH_appointment ADMIN_SECRET authorization now appointment_id payload
       db = (Raise e, db) ∧
     DELETE_appointment ADMIN_SECRET authorization appointment_id db
       = (Raise e, db)) ∧
  (∀ ok, gate = Ok ok →
     GET_appointments ADMIN_SECRET authorization db
       = list_appointments ok db ∧
     PATCH_appointment ADMIN_SECRET authorization now appointment_id payload
       db = update_appointment now appointment_id payload ok db ∧
     DELETE_appointment ADMIN_SECRET authorization appointment_id db
       = delete_appointment appointment_id ok db).
Proof.
  intros gate. subst gate. repeat split; [unfold admin_required ..| | | | | |].
  - intros [-> | (a & -> & Hno)]; [reflexivity|].
    destruct (startswith (lower a) "bearer ") eqn:Hp.
    + apply startswith_bearer in Hp as [tok Htok]. by destruct (Hno tok).
    + by rewrite orb_true_r.
  - intros a tok -> (He & Hp & Hs)%carries_bearer_split Hne.
    rewrite He, Hp, Hs. cbn [orb negb].
    destruct (String.eqb_spec tok ADMIN_SECRET); [contradiction|reflexivity].
  - intros a -> (He & Hp & Hs)%carries_bearer_split.
    rewrite He, Hp, Hs. cbn [orb negb]. by rewrite String.eqb_refl.
  - unfold GET_appointments, Depends_admin_required. by rewrite H.
  - unfold PATCH_appointment, Depends_admin_required. by rewrite H.
  - unfold DELETE_appointment, Depends_admin_required. by rewrite H.
  - unfold GET_appointments, Depends_admin_required. by rewrite H.
  - unfold PATCH_appointment, Depends_admin_required. by rewrite H.
  - unfold DELETE_appointment, Depends_admin_required. by rewrite H.
Qed.

Lemma admin_gate_witness :
  admin_required "s3cret" (Some "Basic s3cret") = Raise (HTTPException 401) ∧
  admin_required "s3cret" (Some "Bearer guess") = Raise (HTTPException 403) ∧
  admin_required "s3cret" (Some "BEARER s3cret") = Ok true ∧
  DELETE_appointment "s3cret" None "65f0a1b2c3d4e5f601234567" booked_at_ten
    = (Raise (HTTPException 401), booked_at_ten) ∧
  DELETE_appointment "s3cret" (Some "bearer s3cret") "65f0a1b2c3d4e5f601234567"
    booked_at_ten = (Ok true, []).
Proof.
  split_and!.
  - apply (proj1 (admin_gate "s3cret" (Some "Basic s3cret") [] clock "" no_change)).
    right. exists "Basic s3cret". split; [reflexivity|].
    intros tok (scheme & Ha & Hs).
    do 7 (destruct scheme as [|? scheme]; try discriminate Hs).
    simpl in Ha. by simplify_eq.
  - apply (proj1 (proj2 (admin_gate "s3cret" (Some "Bearer guess") [] clock ""
                           no_change)) "Bearer guess" "guess").
    + reflexivity.
    + by exists "Bearer".
    + discriminate.
  - apply (proj1 (proj2 (proj2 (admin_gate "s3cret" (Some "BEARER s3cret") []
                                  clock "" no_change))) "BEARER s3cret").
    + reflexivity.
    + by exists "BEARER".
  - apply (proj1 (proj2 (proj2 (proj2 (admin_gate "s3cret" None booked_at_ten
             clock "65f0a1b2c3d4e5f601234567" no_change))))
             (HTTPException 401)).
    reflexivity.
  - destruct (proj2 (proj2 (proj2 (proj2 (admin_gate "s3cret"
             (Some "bearer s3cret") booked_at_ten
             clock "65f0a1b2c3d4e5f601234567" no_change)))) true)
      as (_ & _ & ->); [reflexivity|].
    vm_compute. reflexivity.
Defined.

(** ** Queries *)

Lemma matches_by_id oid d :
  matches [("_id", Is (VId oid))] d = true ↔ has_id d oid.
Proof.
  unfold matches, has_id. simpl. rewrite andb_true_r.
  apply bool_decide_eq_true.
Qed.

Lemma matches_slot dt d :
  matches [("datetime_iso", Is (VDate dt)); ("status", Ne (VStr "canceled"))] d
    = true ↔ slot_of d dt ∧ active d.
Proof.
  unfold matches, slot_of, active. simpl.
  rewrite andb_true_r, andb_true_iff, negb_true_iff.
  rewrite bool_decide_eq_true, bool_decide_eq_false. tauto.
Qed.

Lemma matches_other_slot oid dt d :
  matches [("_id", Ne (VId oid)); ("datetime_iso", Is (VDate dt));
           ("status", Ne (VStr "canceled"))] d = true
  ↔ ¬ has_id d oid ∧ slot_of d dt ∧ active d.
Proof.
  unfold matches, slot_of, active, has_id. simpl.
  rewrite andb_true_r, !andb_true_iff, !negb_true_iff.
  rewrite bool_decide_eq_true, !bool_decide_eq_false. tauto.
Qed.

Lemma find_one_None q (db : store) :
  find_one q db = None ↔ ∀ d, d ∈ db → matches q d = false.
Proof.
  unfold find_one. induction db as [|e db IH]; simpl.
  - split; [|done]. intros _ d Hd. by apply elem_of_nil in Hd.
  - destruct (matches q e) eqn:He.
    + split; [done|]. intros H. specialize (H e (list_elem_of_here _ _)).
      congruence.
    + rewrite IH. split.
      * intros H d [->|Hd]%elem_of_cons; auto.
      * intros H d Hd. apply H. by apply list_elem_of_further.
Qed.

Lemma find_one_Some q (db : store) d :
  find_one q db = Some d → d ∈ db ∧ matches q d = true.
Proof.
  unfold find_one. intros H. apply find_some in H as [Hin Hm].
  by rewrite list_elem_of_In.
Qed.

Lemma find_one_is_Some q (db : store) d :
  d ∈ db → matches q d = true → ∃ e, find_one q db = Some e.
Proof.
  intros Hin Hm. destruct (find_one q db) as [e|] eqn:Hf; [by exists e|].
  rewrite find_one_None in Hf. rewrite (Hf d Hin) in Hm. discriminate.
Qed.

Lemma find_one_last q (db : store) d :
  (∀ e, e ∈ db → matches q e = false) → matches q d = true →
  find_one q (db ++ [d]) = Some d.
Proof.
  intros Hno Hd. unfold find_one. induction db as [|e db IH]; cbn [app List.find].
  - by rewrite Hd.
  - rewrite (Hno e) by apply list_elem_of_here.
    apply IH. intros ? ?. apply Hno. by apply list_elem_of_further.
Qed.

(** ** Create *)

Lemma respond_created now new_id p :
  respond (created_doc now new_id p) = Ok (created_out now new_id p).
Proof.
  unfold respond, created_doc, created_out.
  destruct p as [fn ln em ph dt loc [nt|]]; reflexivity.
Qed.

Lemma create_appointment_conflict now new_id p (db : store) d :
  d ∈ db →
  slot_of d (truncated (AppointmentCreate.datetime_iso p)) →
  active d →
  create_appointment now new_id p db = (Raise (HTTPException 409), db).
Proof.
  intros Hin Hs Ha. unfold create_appointment. cbv zeta. rewrite !replace_truncated.
  destruct (find_one_is_Some _ db d Hin (proj2 (matches_slot _ _) (conj Hs Ha)))
    as [e ->].
  reflexivity.
Qed.

Lemma create_appointment_stores now new_id p (db : store) :
  (∀ d, d ∈ db →
     slot_of d (truncated (AppointmentCreate.datetime_iso p)) →
     ¬ active d) →
  ∃ r, create_appointment now new_id p db
       = (r, db ++ [created_doc now new_id p]).
Proof.
  intros Hfree. unfold create_appointment. cbv zeta. rewrite !replace_truncated.
  destruct (find_one _ db) as [e|] eqn:Hf.
  - apply find_one_Some in Hf as [Hin [Hs Ha]%matches_slot].
    destruct (Hfree e Hin Hs Ha).
  - eexists. reflexivity.
Qed.

Lemma create_appointment_free now new_id p (db : store) :
  (∀ d, d ∈ db →
     slot_of d (truncated (AppointmentCreate.datetime_iso p)) →
     ¬ active d) →
  assignable new_id db →
  create_appointment now new_id p db
  = (Ok (created_out now new_id p), db ++ [created_doc now new_id p]).
Proof.
  intros Hfree [Hstr Hfresh]. unfold create_appointment. cbv zeta. rewrite !replace_truncated.
  destruct (find_one _ db) as [e|] eqn:Hf.
  - apply find_one_Some in Hf as [Hin [Hs Ha]%matches_slot].
    destruct (Hfree e Hin Hs Ha).
  - unfold create_document, AppointmentSchema_model_dump, insert_one.
    rewrite Hstr. cbn [mbind result_bind].
    fold (created_doc now new_id p).
    f_equal.
    rewrite (find_one_last _ db (created_doc now new_id p)).
    + apply respond_created.
    + intros d Hd. apply not_true_is_false. rewrite matches_by_id. auto.
    + apply matches_by_id. unfold has_id, created_doc.
      apply lookup_insert_eq.
Qed.

(** ** Partial updates *)

Lemma lookup_dump_field {A} k' (inj : A → Value) f (m : doc) k :
  dump_field k' inj f m !! k
  = if decide (k = k') then
      match entry inj f with Some v => Some v | None => m !! k end
    else m !! k.
Proof.
  unfold dump_field, entry. destruct f as [|[v|]]; case_decide; subst;
    rewrite ?lookup_insert_eq, ?lookup_insert_ne by done; done.
Qed.

Lemma model_dump_lookup p k :
  model_dump_exclude_unset p !! k = payload_entry p k.
Proof.
  unfold model_dump_exclude_unset, payload_entry.
  rewrite !lookup_dump_field, lookup_empty.
  repeat match goal with
  | |- context [decide (k = ?key)] =>
      destruct (decide (k = key)) as [->|?];
      [repeat first [rewrite decide_True by done | rewrite decide_False by done];
       by match goal with |- context [entry ?i ?f] => destruct (entry i f) end
      |]
  end.
  done.
Qed.

(** ** Store operations by identifier *)


Lemma delete_one_cases oid (db : store) :
  ((∀ e, e ∈ db → ¬ has_id e oid) ∧
   delete_one [("_id", Is (VId oid))] db = (0%Z, db)) ∨
  (∃ pre d post, db = pre ++ d :: post ∧ has_id d oid ∧
     (∀ e, e ∈ pre → ¬ has_id e oid) ∧
     delete_one [("_id", Is (VId oid))] db = (1%Z, pre ++ post)).
Proof.
  induction db as [|e db IH].
  - left. split; [|done]. intros e He. by apply elem_of_nil in He.
  - cbn [delete_one].
    destruct (matches [("_id", Is (VId oid))] e) eqn:He.
    + right. exists [], e, db. apply matches_by_id in He.
      split_and!; [done|done| |done].
      intros x Hx. by apply elem_of_nil in Hx.
    + assert (¬ has_id e oid) as Hne.
      { rewrite <- matches_by_id. congruence. }
      destruct IH as [[Hno ->] | (pre & d & post & -> & Hd & Hpre & ->)].
      * left. split; [|done]. intros x [->|Hx]%elem_of_cons; auto.
      * right. exists (e :: pre), d, post. split_and!; [done|done| |done].
        intros x [->|Hx]%elem_of_cons; auto.
Qed.

Lemma set_document_lookup now p k :
  set_document now p !! k = written now p k.
Proof.
  unfold set_document, written.
  destruct (decide (k = "updated_at")) as [->|Hk].
  { by rewrite lookup_insert_eq. }
  rewrite lookup_insert_ne by done.
  destruct (decide (k = "datetime_iso")) as [->|Hd].
  - unfold payload_entry.
    repeat first [rewrite decide_True by done | rewrite decide_False by done].
    destruct (AppointmentUpdate.datetime_iso p) as [|[dt|]] eqn:E; cbn [entry].
    + rewrite model_dump_lookup. unfold payload_entry.
      repeat first [rewrite decide_True by done | rewrite decide_False by done].
      by rewrite E.
    + by rewrite lookup_insert_eq.
    + rewrite model_dump_lookup. unfold payload_entry.
      repeat first [rewrite decide_True by done | rewrite decide_False by done].
      by rewrite E.
  - assert (∀ m : doc, match AppointmentUpdate.datetime_iso p with
            | Given (Some dt) => <["datetime_iso" := VDate (truncated dt)]> m
            | _ => m end !! k = m !! k) as ->.
    { intros m. destruct (AppointmentUpdate.datetime_iso p) as [|[dt|]];
        rewrite ?lookup_insert_ne by done; done. }
    rewrite model_dump_lookup. unfold payload_entry.
    rewrite (decide_False (P := k = "datetime_iso")) by done.
    repeat case_decide;
      try match goal with |- context [entry VStr ?f] => by destruct f as [|[?|]] end.
    done.
Qed.

Lemma guard_updates_eq oid p (db : store) :
  guard_updates oid (model_dump_exclude_unset p) db =
  match AppointmentUpdate.datetime_iso p with
  | Given (Some dt) =>
      match find_one [("_id", Ne (VId oid));
                      ("datetime_iso", Is (VDate (truncated dt)));
                      ("status", Ne (VStr "canceled"))] db with
      | Some _ => Raise (HTTPException 409)
      | None => Ok (<["datetime_iso" := VDate (truncated dt)]>
                      (model_dump_exclude_unset p))
      end
  | _ => Ok (model_dump_exclude_unset p)
  end.
Proof.
  unfold guard_updates. cbv zeta. rewrite model_dump_lookup. unfold payload_entry.
  repeat first [rewrite decide_True by done | rewrite decide_False by done].
  by destruct (AppointmentUpdate.datetime_iso p) as [|[dt|]].
Qed.


(** ** Response shaping *)

Lemma popped_lookup (d : doc) v k :
  k ≠ "id" → k ≠ "_id" → (<["id" := v]> (delete "_id" d)) !! k = d !! k.
Proof. intros. by rewrite lookup_insert_ne, lookup_delete_ne. Qed.

Lemma respond_presentable d :
  presentable d →
  ∃ out, respond d = Ok out ∧ slot_of d (AppointmentOut.datetime_iso out).
Proof.
  intros ([v Hid] & [fn Hfn] & [ln Hln] & [em Hem] & [ph Hph] & [dt Hdt] &
          [loc Hloc] & [st Hst] & Hn & Hc & Hu).
  assert (∃ n, optional_str (<["id" := VStr (str_Value v)]> (delete "_id" d))
                 "notes" = Ok n) as [n Hn'].
  { unfold optional_str. rewrite popped_lookup by done.
    destruct Hn as [-> | [-> | [s ->]]]; eauto. }
  assert (∃ c, optional_datetime (<["id" := VStr (str_Value v)]> (delete "_id" d))
                 "created_at" = Ok c) as [c Hc'].
  { unfold optional_datetime. rewrite popped_lookup by done.
    destruct Hc as [-> | [-> | [s ->]]]; eauto. }
  assert (∃ u, optional_datetime (<["id" := VStr (str_Value v)]> (delete "_id" d))
                 "updated_at" = Ok u) as [u Hu'].
  { unfold optional_datetime. rewrite popped_lookup by done.
    destruct Hu as [-> | [-> | [s ->]]]; eauto. }
  exists (AppointmentOut.mk (str_Value v) fn ln em ph dt loc st n c u).
  split; [|done].
  unfold respond, pop_id. rewrite Hid. cbn [mbind result_bind].
  unfold AppointmentOut_new. rewrite Hn', Hc', Hu'.
  unfold required_str, required_datetime.
  rewrite lookup_insert_eq, !popped_lookup by done.
  by rewrite Hfn, Hln, Hem, Hph, Hdt, Hloc, Hst.
Qed.

Lemma updated_lookup now p (d : doc) k :
  (set_document now p ∪ d) !! k
  = match written now p k with Some v => Some v | None => d !! k end.
Proof.
  rewrite lookup_union, set_document_lookup.
  destruct (written now p k), (d !! k); done.
Qed.

Lemma written_text now p k (f : Field string) :
  k ≠ "updated_at" → payload_entry p k = entry VStr f → f ≠ Given None →
  ∀ d : doc, is_text (d !! k) →
  is_text (match written now p k with Some v => Some v | None => d !! k end).
Proof.
  intros Hk He Hf d Hd. unfold written. rewrite decide_False by done.
  rewrite He. destruct f as [|[s|]]; cbn [entry]; [done|by eexists|done].
Qed.

Lemma presentable_updated now p d :
  presentable d → keeps_required p → presentable (set_document now p ∪ d).
Proof.
  intros (Hid & Hfn & Hln & Hem & Hph & Hdt & Hloc & Hst & Hn & Hc & Hu)
         (Kfn & Kln & Kem & Kph & Kdt & Kloc & Kst).
  unfold presentable. rewrite !updated_lookup.
  split_and!.
  - by unfold written, payload_entry;
      repeat first [rewrite decide_True by done | rewrite decide_False by done].
  - by apply (written_text _ _ _ (AppointmentUpdate.first_name p)).
  - by apply (written_text _ _ _ (AppointmentUpdate.last_name p)).
  - by apply (written_text _ _ _ (AppointmentUpdate.email p)).
  - by apply (written_text _ _ _ (AppointmentUpdate.phone p)).
  - unfold written, payload_entry.
    repeat first [rewrite decide_True by done | rewrite decide_False by done].
    destruct (AppointmentUpdate.datetime_iso p) as [|[s|]]; cbn [entry];
      [done|by eexists|done].
  - by apply (written_text _ _ _ (AppointmentUpdate.location p)).
  - by apply (written_text _ _ _ (AppointmentUpdate.status p)).
  - unfold written, payload_entry.
    repeat first [rewrite decide_True by done | rewrite decide_False by done].
    destruct (AppointmentUpdate.notes p) as [|[s|]]; cbn [entry];
      [done|right; right; by eexists|by right; left].
  - by unfold written, payload_entry;
      repeat first [rewrite decide_True by done | rewrite decide_False by done].
  - unfold written. rewrite decide_True by done. right; right. by eexists.
Qed.

(** ** Slot conflicts on create *)



(** ** Update and delete on the first document with an identifier *)

Lemma find_one_and_update_first oid (u : doc) (pre : store) d post :
  (∀ e, e ∈ pre → ¬ has_id e oid) → has_id d oid →
  find_one_and_update [("_id", Is (VId oid))] u (pre ++ d :: post)
  = (Some (u ∪ d), pre ++ (u ∪ d) :: post).
Proof.
  intros Hpre Hd. induction pre as [|e pre IH]; cbn [app find_one_and_update].
  - by rewrite (proj2 (matches_by_id oid d) Hd).
  - assert (matches [("_id", Is (VId oid))] e = false) as ->.
    { apply not_true_is_false. rewrite matches_by_id.
      apply Hpre, list_elem_of_here. }
    rewrite IH; [done|]. intros x Hx. by apply Hpre, list_elem_of_further.
Qed.



Lemma delete_one_absent oid (db : store) :
  (∀ e, e ∈ db → ¬ has_id e oid) →
  delete_one [("_id", Is (VId oid))] db = (0%Z, db).
Proof.
  intros Hno.
  destruct (delete_one_cases oid db)
    as [[_ ->] | (pre & d & post & -> & Hd & _)]; [done|].
  destruct (Hno d); [|done]. apply elem_of_app. right. apply list_elem_of_here.
Qed.


Lemma update_appointment_guarded now appointment_id p ok (db : store) oid :
  ObjectId_new appointment_id = Ok oid →
  (∀ dt, AppointmentUpdate.datetime_iso p = Given (Some dt) →
     slot_free_for oid (truncated dt) db) →
  update_appointment now appointment_id p ok db
  = match find_one_and_update [("_id", Is (VId oid))] (set_document now p) db
    with
    | (None, db') => (Raise (HTTPException 404), db')
    | (Some res, db') => (respond res, db')
    end.
Proof.
  intros Hid Hfree. unfold update_appointment, set_document.
  rewrite Hid, guard_updates_eq.
  destruct (AppointmentUpdate.datetime_iso p) as [|[dt|]] eqn:E; try done.
  destruct (find_one _ db) as [e|] eqn:Hf; [|done].
  apply find_one_Some in Hf as [Hin (Hne & Hs & Ha)%matches_other_slot].
  destruct (Hfree dt eq_refl e Hin Hne Hs Ha).
Qed.

Lemma update_appointment_applied now appointment_id p ok oid
    (pre : store) d post :
  ObjectId_new appointment_id = Ok oid →
  (∀ dt, AppointmentUpdate.datetime_iso p = Given (Some dt) →
     slot_free_for oid (truncated dt) (pre ++ d :: post)) →
  (∀ e, e ∈ pre → ¬ has_id e oid) → has_id d oid →
  update_appointment now appointment_id p ok (pre ++ d :: post)
  = (respond (set_document now p ∪ d),
     pre ++ (set_document now p ∪ d) :: post).
Proof.
  intros Hid Hfree Hpre Hd.
  rewrite (update_appointment_guarded _ _ _ _ _ oid) by done.
  by rewrite find_one_and_update_first.
Qed.

(** ** Slot conflicts on update *)



(** case analysis on the documents of a store given by enumeration *)
Ltac each_document H :=
  repeat (apply elem_of_cons in H as [->|H]); [..|by apply elem_of_nil in H].

Lemma created_doc_presentable now new_id p :
  presentable (created_doc now new_id p).
Proof.
  unfold presentable, created_doc, is_text, is_date, text_or_null, date_or_null.
  split_and!; try (vm_compute; by eauto).
  destruct (AppointmentCreate.notes p); vm_compute; eauto.
Qed.


Lemma bind_raises {A B} (m : result A) (f : A → result B) e :
  m ≫= f = Raise e → m = Raise e ∨ ∃ a, m = Ok a ∧ f a = Raise e.
Proof.
  destruct m as [a|e']; intros H; [right; by exists a|].
  left. cbn in H. by injection H as ->.
Qed.

Lemma required_str_raises (d : doc) k e :
  required_str d k = Raise e → e = ValidationError.
Proof. unfold required_str. destruct (d !! k) as [[]|]; congruence. Qed.

Lemma required_datetime_raises (d : doc) k e :
  required_datetime d k = Raise e → e = ValidationError.
Proof. unfold required_datetime. destruct (d !! k) as [[]|]; congruence. Qed.

Lemma optional_str_raises (d : doc) k e :
  optional_str d k = Raise e → e = ValidationError.
Proof. unfold optional_str. destruct (d !! k) as [[]|]; congruence. Qed.

Lemma optional_datetime_raises (d : doc) k e :
  optional_datetime d k = Raise e → e = ValidationError.
Proof. unfold optional_datetime. destruct (d !! k) as [[]|]; congruence. Qed.

Lemma AppointmentOut_new_raises (d : doc) e :
  AppointmentOut_new d = Raise e → e = ValidationError.
Proof.
  unfold AppointmentOut_new. intros H.
  repeat (apply bind_raises in H as [H | (? & _ & H)];
    [first [by apply required_str_raises in H
           |by apply required_datetime_raises in H
           |by apply optional_str_raises in H
           |by apply optional_datetime_raises in H]|]).
  discriminate H.
Qed.

Lemma AppointmentOut_new_null_datetime (d : doc) :
  d !! "datetime_iso" = Some VNull →
  AppointmentOut_new d = Raise ValidationError.
Proof.
  intros Hnull. unfold AppointmentOut_new.
  repeat match goal with
  | |- context [required_str d ?k] =>
      let E := fresh in
      destruct (required_str d k) as [?|?] eqn:E;
      [|apply required_str_raises in E; by subst];
      cbn [mbind result_bind]
  end.
  unfold required_datetime. by rewrite Hnull.
Qed.

(** the exceptions of the response shaping are never HTTP errors *)
Lemma respond_raises d e :
  respond d = Raise e → e = KeyError ∨ e = ValidationError.
Proof.
  unfold respond, pop_id. destruct (d !! "_id") as [v|].
  - intros [H | (? & _ & H)]%bind_raises; [discriminate H|].
    right. by apply AppointmentOut_new_raises in H.
  - intros [= <-]. by left.
Qed.

(** ** Canceled appointments *)



(** ** Store keys *)

Lemma is_hex_spec c : is_hex c = existsb (Ascii.eqb c) hex_digits.
Proof. destruct c as [[] [] [] [] [] [] [] []]; reflexivity. Qed.

Lemma all_hex_spec s :
  all_hex s = true ↔ ∀ c, In c (list_ascii_of_string s) → In c hex_digits.
Proof.
  induction s as [|a s IH]; simpl.
  - split; [intros _ c []|done].
  - rewrite andb_true_iff, IH, is_hex_spec, existsb_exists. split.
    + intros [(x & Hx & Hax%Ascii.eqb_eq) Hs] c [Hc|Hc].
      * by rewrite <- Hc, Hax.
      * by apply Hs.
    + intros H. split.
      * exists a. split; [apply H; by left|apply Ascii.eqb_refl].
      * intros c Hc. apply H. by right.
Qed.

Lemma ObjectId_is_valid_spec s :
  ObjectId_is_valid s = true ↔ well_formed_key s.
Proof.
  unfold ObjectId_is_valid, well_formed_key.
  by rewrite andb_true_iff, Nat.eqb_eq, all_hex_spec.
Qed.

Lemma ObjectId_new_malformed s :
  ¬ well_formed_key s → ObjectId_new s = Raise InvalidId.
Proof.
  intros H. unfold ObjectId_new.
  destruct (ObjectId_is_valid s) eqn:E; [|done].
  by apply ObjectId_is_valid_spec in E.
Qed.

Lemma ObjectId_new_well_formed s :
  well_formed_key s → ObjectId_new s = Ok (Oid (lower s)).
Proof.
  intros H%ObjectId_is_valid_spec. unfold ObjectId_new. by rewrite H.
Qed.

(** ** Partial update: what changes and what does not *)





(** ** Delete *)




(** ** Update with a null datetime *)

(** C10. When an update supplies [datetime_iso] as null, nothing is
    truncated and the slot-conflict guard does not run (no 409, whatever
    the store holds): the appointment's stored [datetime_iso] becomes null.
    The response is then a validation error of the output model, raised
    after the store was written.  When the update leaves [datetime_iso]
    out, the stored datetime stays as it was. *)
Theorem null_datetime_update now appointment_id p ok oid (pre : store) d post :
  ObjectId_new appointment_id = Ok oid →
  has_id d oid → (∀ e, e ∈ pre → ¬ has_id e oid) →
  (AppointmentUpdate.datetime_iso p = Given None →
     ∃ d',
       update_appointment now appointment_id p ok (pre ++ d :: post)
       = (Raise ValidationError, pre ++ d' :: post) ∧
       d' !! "datetime_iso" = Some VNull) ∧
  (AppointmentUpdate.datetime_iso p = Unset →
     ∃ r d',
       update_appointment now appointment_id p ok (pre ++ d :: post)
       = (r, pre ++ d' :: post) ∧
       r ≠ Raise (HTTPException 409) ∧
       d' !! "datetime_iso" = d !! "datetime_iso").
Proof.
  intros Hid Hd Hpre. split; intros Hdt.
  - exists (set_document now p ∪ d).
    rewrite (update_appointment_applied _ _ _ _ oid); [|done| |done|done].
    2: { intros dt Hdt'. congruence. }
    assert ((set_document now p ∪ d) !! "datetime_iso" = Some VNull) as Hnull.
    { rewrite updated_lookup. unfold written, payload_entry.
      repeat first [rewrite decide_True by done | rewrite decide_False by done].
      by rewrite Hdt. }
    split; [|done]. f_equal.
    assert (is_Some ((set_document now p ∪ d) !! "_id")) as [v Hv].
    { rewrite updated_lookup. unfold written, payload_entry.
      repeat first [rewrite decide_True by done | rewrite decide_False by done].
      unfold has_id in Hd. by rewrite Hd. }
    unfold respond, pop_id. rewrite Hv. cbn [mbind result_bind].
    apply AppointmentOut_new_null_datetime.
    by rewrite popped_lookup.
  - exists (respond (set_document now p ∪ d)), (set_document now p ∪ d).
    rewrite (update_appointment_applied _ _ _ _ oid); [|done| |done|done].
    2: { intros dt Hdt'. congruence. }
    split_and!; [done| |].
    + intros Hr. apply respond_raises in Hr as [?|?]; discriminate.
    + rewrite updated_lookup. unfold written, payload_entry.
      repeat first [rewrite decide_True by done | rewrite decide_False by done].
      by rewrite Hdt.
Qed.

Lemma null_datetime_update_witness :
  (∃ d',
     update_appointment clock "65f0a1b2c3d4e5f601234567"
       (set_datetime (Given None)) true ([] ++ booked_at_ten)
     = (Raise ValidationError, [] ++ d' :: []) ∧
     d' !! "datetime_iso" = Some VNull) ∧
  (∃ r d',
     update_appointment clock "65f0a1b2c3d4e5f601234567"
       (set_datetime Unset) true ([] ++ booked_at_ten)
     = (r, [] ++ d' :: []) ∧
     r ≠ Raise (HTTPException 409) ∧
     d' !! "datetime_iso"
     = created_doc clock id_a (ana (at_2024_05_01 10 0 30 None))
         !! "datetime_iso").
Proof.
  split.
  - apply (proj1 (null_datetime_update clock "65f0a1b2c3d4e5f601234567"
             (set_datetime (Given None)) true id_a []
             (created_doc clock id_a (ana (at_2024_05_01 10 0 30 None))) []
             ltac:(vm_compute; reflexivity) ltac:(vm_compute; reflexivity)
             ltac:(intros e He; by apply elem_of_nil in He))).
    reflexivity.
  - apply (proj2 (null_datetime_update clock "65f0a1b2c3d4e5f601234567"
             (set_datetime Unset) true id_a []
             (created_doc clock id_a (ana (at_2024_05_01 10 0 30 None))) []
             ltac:(vm_compute; reflexivity) ltac:(vm_compute; reflexivity)
             ltac:(intros e He; by apply elem_of_nil in He))).
    reflexivity.
Defined.

(** ** Minute precision *)

Lemma created_doc_slot now new_id p :
  slot_of (created_doc now new_id p)
    (truncated (AppointmentCreate.datetime_iso p)).
Proof. reflexivity. Qed.



(** ** Dates as text *)


Lemma append_String c s t : String c s +:+ t = String c (s +:+ t).
Proof. reflexivity. Qed.

Lemma append_empty t : "" +:+ t = t.
Proof. reflexivity. Qed.

Lemma is_digit_digit_char k :
  (0 ≤ k < 10)%Z → is_digit (digit_char k) = true ∧ digit_val (digit_char k) = k.
Proof.
  intros H.
  assert (k = 0 ∨ k = 1 ∨ k = 2 ∨ k = 3 ∨ k = 4 ∨ k = 5 ∨ k = 6 ∨ k = 7 ∨
          k = 8 ∨ k = 9)%Z as Hk by lia.
  repeat destruct Hk as [->|Hk]; try subst k; by vm_compute.
Qed.


Lemma parse_zfill4 y rest :
  (0 ≤ y < 10000)%Z → parse_digits 4 (zfill 4 y +:+ rest) 0 = Some (y, rest).
Proof.
  intros Hy. unfold zfill. cbn [zfill_acc].
  rewrite !append_String, append_empty. cbn [parse_digits].
  repeat match goal with
  | |- context [is_digit (digit_char ?k)] =>
      let H := fresh in
      assert (0 ≤ k < 10)%Z as H by (apply Z.mod_pos_bound; lia);
      destruct (is_digit_digit_char k H) as [-> ->]; clear H
  end.
  do 2 f_equal. Z.div_mod_to_equations. lia.
Qed.

Lemma parse_zfill2 y rest :
  (0 ≤ y < 100)%Z → parse_digits 2 (zfill 2 y +:+ rest) 0 = Some (y, rest).
Proof.
  intros Hy. unfold zfill. cbn [zfill_acc].
  rewrite !append_String, append_empty. cbn [parse_digits].
  repeat match goal with
  | |- context [is_digit (digit_char ?k)] =>
      let H := fresh in
      assert (0 ≤ k < 10)%Z as H by (apply Z.mod_pos_bound; lia);
      destruct (is_digit_digit_char k H) as [-> ->]; clear H
  end.
  do 2 f_equal. Z.div_mod_to_equations. lia.
Qed.

Lemma append_assoc' (a b c : string) : (a +:+ b) +:+ c = a +:+ (b +:+ c).
Proof. induction a as [|x a IH]; [done|]. rewrite !append_String. by f_equal. Qed.

Lemma parse_isoformat_date_format y m d rest :
  (0 ≤ y < 10000)%Z → (0 ≤ m < 100)%Z → (0 ≤ d < 100)%Z →
  parse_isoformat_date (format_date y m d +:+ rest) = Some (y, m, d, rest).
Proof.
  intros Hy Hm Hd. unfold parse_isoformat_date, format_date.
  rewrite !append_assoc', parse_zfill4 by done. cbn [mbind option_bind].
  rewrite append_String, append_empty. cbn [expect].
  rewrite Ascii.eqb_refl. cbn [mbind option_bind].
  rewrite parse_zfill2 by done. cbn [mbind option_bind].
  rewrite append_String, append_empty. cbn [expect].
  rewrite Ascii.eqb_refl. cbn [mbind option_bind].
  rewrite parse_zfill2 by done. reflexivity.
Qed.

Lemma valid_date_bounds y m d :
  valid_date y m d →
  (0 ≤ y < 10000)%Z ∧ (0 ≤ m < 100)%Z ∧ (0 ≤ d < 100)%Z ∧
  check_date_fields y m d = true.
Proof.
  intros (Hy & Hm & Hd). unfold check_date_fields.
  assert (days_in_month y m ≤ 31)%Z.
  { unfold days_in_month. repeat case_match; lia. }
  repeat split; lia.
Qed.


Lemma fromisoformat_day_start y m d :
  valid_date y m d →
  fromisoformat (format_date y m d +:+ "T00:00:00") = Some (day_start y m d).
Proof.
  intros (Hy & Hm & Hd & Hc)%valid_date_bounds. unfold fromisoformat.
  rewrite parse_isoformat_date_format by done. cbn [mbind option_bind].
  assert (parse_isoformat_time "00:00:00" = Some (0, 0, 0, 0, None)%Z) as ->
    by (vm_compute; reflexivity).
  cbn [mbind option_bind]. by rewrite Hc.
Qed.

Lemma fromisoformat_day_end y m d :
  valid_date y m d →
  fromisoformat (format_date y m d +:+ "T23:59:59.999999")
  = Some (day_end y m d).
Proof.
  intros (Hy & Hm & Hd & Hc)%valid_date_bounds. unfold fromisoformat.
  rewrite parse_isoformat_date_format by done. cbn [mbind option_bind].
  assert (parse_isoformat_time "23:59:59.999999"
          = Some (23, 59, 59, 999999, None)%Z) as -> by (vm_compute; reflexivity).
  cbn [mbind option_bind]. by rewrite Hc.
Qed.

(** *** What the parser accepts *)

















(** ** Availability *)


Lemma project_lookup (e : doc) k :
  k ≠ "_id" → project k e !! k = e !! k.
Proof.
  intros Hk. unfold project.
  destruct (e !! "_id") as [v|]; rewrite ?lookup_insert_ne by done;
    destruct (e !! k) as [w|] eqn:E;
    by rewrite ?lookup_insert_eq, ?lookup_empty.
Qed.

Lemma bool_decide_active (e : doc) :
  bool_decide (active e)
  = negb (bool_decide (e !! "status" = Some (VStr "canceled"))).
Proof. unfold active. by do 2 case_bool_decide. Qed.

Lemma availability_query y m d (db : store) :
  mapM isoformat_of
    (project "datetime_iso" <$>
     find [("datetime_iso", Between (day_start y m d) (day_end y m d));
           ("status", Ne (VStr "canceled"))] db)
  = Ok (isoformat <$> occupied_on y m d db).
Proof.
  unfold find, occupied_on. induction db as [|e db IH]; [done|].
  cbn [List.filter omap list_omap].
  assert (matches [("datetime_iso", Between (day_start y m d) (day_end y m d));
                   ("status", Ne (VStr "canceled"))] e
          = match e !! "datetime_iso" with
            | Some (VDate dt) =>
                bool_decide (active e) &&
                datetime_leb (day_start y m d) dt &&
                datetime_leb dt (day_end y m d)
            | _ => false
            end) as ->.
  { unfold matches. cbn [forallb cond_holds fst snd]. rewrite andb_true_r.
    rewrite bool_decide_active.
    destruct (e !! "datetime_iso") as [[| |dt|]|]; try done.
    destruct (datetime_leb (day_start y m d) dt),
      (datetime_leb dt (day_end y m d)),
      (bool_decide (e !! "status" = Some (VStr "canceled"))); done. }
  destruct (e !! "datetime_iso") as [[| |dt|]|] eqn:Hdt; try apply IH.
  destruct (_ && _ && _); [|apply IH].
  rewrite !fmap_cons. cbn [mapM]. rewrite IH.
  unfold isoformat_of. by rewrite project_lookup, Hdt.
Qed.


Lemma in_day_time y m d dt :
  year dt = y → month dt = m → day dt = d →
  check_time_fields (hour dt) (minute dt) (second dt) (microsecond dt) = true →
  in_day y m d dt.
Proof.
  intros <- <- <- Ht. unfold check_time_fields in Ht.
  unfold in_day, datetime_leb, compare_fields, day_start, day_end.
  cbn [year month day hour minute second microsecond].
  rewrite !Z.compare_refl. cbn [lex].
  split.
  - repeat match goal with
    | |- context [(?a ?= ?b)%Z] =>
        destruct (Z.compare_spec a b); cbn [lex]; try done; try lia
    end.
  - repeat match goal with
    | |- context [(?a ?= ?b)%Z] =>
        destruct (Z.compare_spec a b); cbn [lex]; try done; try lia
    end.
Qed.


Lemma occupied_on_elem y m d (db : store) dt :
  dt ∈ occupied_on y m d db ↔
  ∃ e, e ∈ db ∧ slot_of e dt ∧ active e ∧ in_day y m d dt.
Proof.
  unfold occupied_on, slot_of, in_day. rewrite list_elem_of_omap. split.
  - intros (e & Hin & He). exists e. split; [done|].
    destruct (e !! "datetime_iso") as [[| |x|]|]; try discriminate He.
    destruct (bool_decide (active e)) eqn:Ha; [|discriminate He].
    destruct (datetime_leb (day_start y m d) x) eqn:H1; [|discriminate He].
    destruct (datetime_leb x (day_end y m d)) eqn:H2; [|discriminate He].
    injection He as ->. by apply bool_decide_eq_true in Ha.
  - intros (e & Hin & Hs & Ha & H1 & H2). exists e. split; [done|].
    cbn beta. by rewrite Hs, (bool_decide_eq_true_2 _ Ha), H1, H2.
Qed.



(** ** Offsets *)


(** * Further properties of main.py *)


(** ** The gate grants access to the secret only *)

(** X1. The gate returns normally only for a header that carries the
    configured secret as bearer token, and its only errors are 401 and 403:
    reading the token after the first space never fails. *)
Theorem admin_required_grants_only_secret ADMIN_SECRET authorization :
  (∀ ok, admin_required ADMIN_SECRET authorization = Ok ok →
     ok = true ∧
     ∃ a, authorization = Some a ∧ carries_bearer a ADMIN_SECRET) ∧
  (∀ e, admin_required ADMIN_SECRET authorization = Raise e →
     e = HTTPException 401 ∨ e = HTTPException 403).
Proof.
  unfold admin_required. destruct authorization as [a|].
  2: { split; [discriminate|]. intros e [= <-]. by left. }
  destruct (String.eqb a "") eqn:He; cbn [orb].
  { split; [discriminate|]. intros e [= <-]. by left. }
  destruct (startswith (lower a) "bearer ") eqn:Hp; cbn [negb].
  2: { split; [discriminate|]. intros e [= <-]. by left. }
  destruct (startswith_bearer a Hp) as [tok Htok].
  destruct (carries_bearer_split a tok Htok) as (_ & _ & ->).
  destruct (String.eqb_spec tok ADMIN_SECRET) as [->|Hne]; cbn [negb].
  - split; [|discriminate]. intros ok [= <-]. split; [done|]. by exists a.
  - split; [discriminate|]. intros e [= <-]. by right.
Qed.

Lemma admin_required_grants_only_secret_witness :
  true = true ∧
  ∃ a, Some "bearer s3cret"%string = Some a ∧ carries_bearer a "s3cret".
Proof.
  apply (proj1 (admin_required_grants_only_secret "s3cret"
                  (Some "bearer s3cret"%string)) true).
  reflexivity.
Defined.

(** ** Identifiers as text *)






(** ** Create, composed with itself and with the invariants *)

Lemma create_appointment_cases now new_id p (db : store) :
  let t := truncated (AppointmentCreate.datetime_iso p) in
  (∃ e, e ∈ db ∧ slot_of e t ∧ active e ∧
        create_appointment now new_id p db = (Raise (HTTPException 409), db)) ∨
  (slot_free t db ∧
   ∃ r, create_appointment now new_id p db
        = (r, db ++ [created_doc now new_id p])).
Proof.
  intros t. unfold create_appointment. cbv zeta. rewrite !replace_truncated.
  fold t. destruct (find_one _ db) as [e|] eqn:Hf.
  - left. apply find_one_Some in Hf as [Hin [Hs Ha]%matches_slot].
    by exists e.
  - right. split.
    + intros e Hin Hs Ha. rewrite find_one_None in Hf.
      specialize (Hf e Hin).
      rewrite (proj2 (matches_slot t e)) in Hf by done. discriminate.
    + eexists. reflexivity.
Qed.

Lemma created_doc_active now new_id p : active (created_doc now new_id p).
Proof.
  unfold active, created_doc. rewrite !lookup_insert_ne by done.
  by rewrite lookup_insert_eq.
Qed.

Lemma created_doc_has_id now new_id p : has_id (created_doc now new_id p) new_id.
Proof. unfold has_id, created_doc. by rewrite lookup_insert_eq. Qed.

Lemma create_appointment_Ok_store now new_id p (db : store) out db1 :
  create_appointment now new_id p db = (Ok out, db1) →
  slot_free (truncated (AppointmentCreate.datetime_iso p)) db ∧
  db1 = db ++ [created_doc now new_id p].
Proof.
  intros H.
  destruct (create_appointment_cases now new_id p db)
    as [(e & _ & _ & _ & H409) | [Hfree [r Hr]]].
  - rewrite H409 in H. discriminate H.
  - rewrite Hr in H. by injection H as _ <-.
Qed.

(** X4. After a successful create, every create whose datetime falls in the
    same minute fails with 409 and leaves the store as it is. *)
Theorem second_create_in_same_minute now new_id p now' new_id' p'
    (db : store) out db1 :
  create_appointment now new_id p db = (Ok out, db1) →
  truncated (AppointmentCreate.datetime_iso p')
  = truncated (AppointmentCreate.datetime_iso p) →
  create_appointment now' new_id' p' db1 = (Raise (HTTPException 409), db1).
Proof.
  intros [_ ->]%create_appointment_Ok_store Ht.
  apply (create_appointment_conflict _ _ _ _ (created_doc now new_id p)).
  - apply elem_of_app. right. apply list_elem_of_here.
  - rewrite Ht. apply created_doc_slot.
  - apply created_doc_active.
Qed.

Lemma create_here :
  create_appointment clock id_a (ana (at_2024_05_01 10 0 30 None)) []
  = (Ok (created_out clock id_a (ana (at_2024_05_01 10 0 30 None))),
     booked_at_ten).
Proof.
  apply (create_appointment_free clock id_a (ana (at_2024_05_01 10 0 30 None)) []).
  - intros e He. by apply elem_of_nil in He.
  - split; [vm_compute; reflexivity|]. intros e He. by apply elem_of_nil in He.
Qed.

Lemma second_create_in_same_minute_witness :
  create_appointment clock id_b (ana (at_2024_05_01 10 0 59 None)) booked_at_ten
  = (Raise (HTTPException 409), booked_at_ten).
Proof.
  apply (second_create_in_same_minute clock id_a
           (ana (at_2024_05_01 10 0 30 None)) clock id_b
           (ana (at_2024_05_01 10 0 59 None)) []
           (created_out clock id_a (ana (at_2024_05_01 10 0 30 None)))).
  - apply create_here.
  - reflexivity.
Defined.


(** X5. Create keeps the store free of double bookings and, given an
    identifier no document has, keeps identifiers unique; it only ever
    appends to the store. *)
Theorem create_keeps_invariants now new_id p (db : store) :
  no_double_booking db → unique_ids db →
  (∀ e, e ∈ db → ¬ has_id e new_id) →
  let db1 := (create_appointment now new_id p db).2 in
  no_double_booking db1 ∧ unique_ids db1 ∧ ∃ tail, db1 = db ++ tail.
Proof.
  intros Hbook Hids Hfresh.
  destruct (create_appointment_cases now new_id p db)
    as [(e & _ & _ & _ & ->) | [Hfree [r' ->]]]; cbn [snd].
  { split_and!; [done|done|]. exists []. by rewrite app_nil_r. }
  split_and!.
  - intros i j e1 e2 t H1 H2 S1 S2 A1 A2.
    apply lookup_app_Some in H1 as [H1 | [L1 H1]];
      apply lookup_app_Some in H2 as [H2 | [L2 H2]].
    + by eapply Hbook.
    + apply list_lookup_singleton_Some in H2 as [_ <-].
      destruct (Hfree e1); [by eapply list_elem_of_lookup_2| |done].
      pose proof (created_doc_slot now new_id p) as S. unfold slot_of in *.
      congruence.
    + apply list_lookup_singleton_Some in H1 as [_ <-].
      destruct (Hfree e2); [by eapply list_elem_of_lookup_2| |done].
      pose proof (created_doc_slot now new_id p) as S. unfold slot_of in *.
      congruence.
    + apply list_lookup_singleton_Some in H1 as [? _].
      apply list_lookup_singleton_Some in H2 as [? _]. lia.
  - intros i j e1 e2 o H1 H2 I1 I2.
    apply lookup_app_Some in H1 as [H1 | [L1 H1]];
      apply lookup_app_Some in H2 as [H2 | [L2 H2]].
    + by eapply Hids.
    + apply list_lookup_singleton_Some in H2 as [_ <-].
      pose proof (created_doc_has_id now new_id p) as I. unfold has_id in *.
      assert (o = new_id) as -> by congruence.
      destruct (Hfresh e1); [by eapply list_elem_of_lookup_2|done].
    + apply list_lookup_singleton_Some in H1 as [_ <-].
      pose proof (created_doc_has_id now new_id p) as I. unfold has_id in *.
      assert (o = new_id) as -> by congruence.
      destruct (Hfresh e2); [by eapply list_elem_of_lookup_2|done].
    + apply list_lookup_singleton_Some in H1 as [? _].
      apply list_lookup_singleton_Some in H2 as [? _]. lia.
  - by eexists.
Qed.

Lemma no_double_booking_one (d : doc) : no_double_booking [d].
Proof.
  intros i j e1 e2 t [-> _]%list_lookup_singleton_Some
    [-> _]%list_lookup_singleton_Some. done.
Qed.

Lemma unique_ids_one (d : doc) : unique_ids [d].
Proof.
  intros i j e1 e2 t [-> _]%list_lookup_singleton_Some
    [-> _]%list_lookup_singleton_Some. done.
Qed.

Lemma create_keeps_invariants_witness :
  let db1 := (create_appointment clock id_b
                (ana (at_2024_05_01 11 0 0 None)) booked_at_ten).2 in
  no_double_booking db1 ∧ unique_ids db1 ∧ ∃ tail, db1 = booked_at_ten ++ tail.
Proof.
  apply (create_keeps_invariants clock id_b (ana (at_2024_05_01 11 0 0 None))
           booked_at_ten).
  - apply no_double_booking_one.
  - apply unique_ids_one.
  - intros e He Hid. each_document He. vm_compute in Hid. discriminate Hid.
Defined.


(** X6. Two create requests that differ only in the seconds and microseconds
    of their datetime have the same outcome. *)
Theorem create_ignores_seconds now new_id (db : store)
    first_name last_name email phone dt dt' location notes :
  truncated dt = truncated dt' →
  create_appointment now new_id
    (AppointmentCreate.mk first_name last_name email phone dt location notes) db
  = create_appointment now new_id
      (AppointmentCreate.mk first_name last_name email phone dt' location notes)
      db.
Proof.
  intros Ht. unfold create_appointment. cbv zeta.
  cbn [AppointmentCreate.datetime_iso AppointmentCreate.first_name
       AppointmentCreate.last_name AppointmentCreate.email
       AppointmentCreate.phone AppointmentCreate.location
       AppointmentCreate.notes].
  by rewrite !replace_truncated, Ht.
Qed.

Lemma create_ignores_seconds_witness :
  create_appointment clock id_a (ana (at_2024_05_01 10 0 30 None)) []
  = create_appointment clock id_a
      (ana (mk_datetime 2024 5 1 10 0 59 999999 None)) [].
Proof.
  apply (create_ignores_seconds clock id_a [] "Ana" "B" "a@x.com" "0600000000"
           (at_2024_05_01 10 0 30 None)
           (mk_datetime 2024 5 1 10 0 59 999999 None) "Mourenx" None).
  reflexivity.
Defined.

(** ** Update: what it can and cannot do to the store *)



Lemma written_status now p :
  written now p "status" = entry VStr (AppointmentUpdate.status p).
Proof.
  unfold written, payload_entry.
  repeat first [rewrite decide_True by done | rewrite decide_False by done].
  by destruct (AppointmentUpdate.status p) as [|[s|]].
Qed.

Lemma written_datetime now p :
  written now p "datetime_iso"
  = match AppointmentUpdate.datetime_iso p with
    | Unset => None
    | Given None => Some VNull
    | Given (Some dt) => Some (VDate (truncated dt))
    end.
Proof.
  unfold written, payload_entry.
  repeat first [rewrite decide_True by done | rewrite decide_False by done].
  by destruct (AppointmentUpdate.datetime_iso p) as [|[s|]].
Qed.







Lemma set_status_keeps_required s : keeps_required (set_status s).
Proof. unfold keeps_required. split_and!; discriminate. Qed.

Lemma update_status_applied now appointment_id oid s ok
    (pre : store) d post :
  ObjectId_new appointment_id = Ok oid →
  has_id d oid → (∀ e, e ∈ pre → ¬ has_id e oid) → presentable d →
  ∃ out,
    update_appointment now appointment_id (set_status s) ok
      (pre ++ d :: post)
    = (Ok out, pre ++ (set_document now (set_status s) ∪ d) :: post).
Proof.
  intros Hid Hd Hpre Hpres.
  rewrite (update_appointment_applied _ _ _ _ oid); [|done| |done|done].
  2: { intros dt Hdt. discriminate Hdt. }
  destruct (respond_presentable (set_document now (set_status s) ∪ d))
    as (out & -> & _); [|by exists out].
  apply presentable_updated; [done|apply set_status_keeps_required].
Qed.

(** X9. The guard does not run when only the status changes: setting a
    canceled appointment back to another status succeeds even when another
    appointment that is not canceled holds its slot, and the store then has
    a double booking. *)
Theorem reactivation_double_books now appointment_id oid s ok
    (pre : store) d post e t :
  ObjectId_new appointment_id = Ok oid →
  has_id d oid → (∀ x, x ∈ pre → ¬ has_id x oid) → presentable d →
  canceled d → slot_of d t →
  e ∈ pre ++ post → active e → slot_of e t →
  s ≠ "canceled" →
  ∃ out db1,
    update_appointment now appointment_id (set_status s) ok
      (pre ++ d :: post) = (Ok out, db1) ∧
    ¬ no_double_booking db1.
Proof.
  intros Hid Hd Hpre Hpres Hcan Sd He Ae Se Hs.
  destruct (update_status_applied now appointment_id oid s ok pre d post)
    as [out Hup]; try done.
  exists out, (pre ++ (set_document now (set_status s) ∪ d) :: post).
  split; [done|]. intros Hinv.
  set (d' := set_document now (set_status s) ∪ d) in *.
  assert (slot_of d' t) as Sd'.
  { unfold slot_of, d'. by rewrite updated_lookup, written_datetime. }
  assert (active d') as Ad'.
  { unfold active, d'. rewrite updated_lookup, written_status. cbn.
    congruence. }
  assert ((pre ++ d' :: post) !! length pre = Some d') as Hd'
    by by rewrite list_lookup_middle.
  apply elem_of_app in He as [He|He];
    apply list_elem_of_lookup in He as [i Hi].
  - assert (i < length pre) as Hlt by by eapply lookup_lt_Some.
    assert ((pre ++ d' :: post) !! i = Some e) as Hi'
      by by rewrite lookup_app_l.
    pose proof (Hinv i (length pre) e d' t Hi' Hd' Se Sd' Ae Ad'). lia.
  - assert ((pre ++ d' :: post) !! (length pre + S i) = Some e) as Hi'.
    { rewrite lookup_app_r by lia.
      by replace (length pre + S i - length pre) with (S i) by lia. }
    pose proof (Hinv _ (length pre) e d' t Hi' Hd' Se Sd' Ae Ad'). lia.
Qed.

Lemma reactivation_double_books_witness :
  ∃ out db1,
    update_appointment clock "65f0a1b2c3d4e5f601234567" (set_status "confirmed")
      true
      ([] ++ (<["status" := VStr "canceled"]>
                (created_doc clock id_a (ana (at_2024_05_01 10 0 30 None))))
          :: [created_doc clock id_b (ana (at_2024_05_01 10 0 45 None))])
    = (Ok out, db1) ∧
    ¬ no_double_booking db1.
Proof.
  apply (reactivation_double_books clock "65f0a1b2c3d4e5f601234567" id_a
           "confirmed" true []
           (<["status" := VStr "canceled"]>
              (created_doc clock id_a (ana (at_2024_05_01 10 0 30 None))))
           [created_doc clock id_b (ana (at_2024_05_01 10 0 45 None))]
           (created_doc clock id_b (ana (at_2024_05_01 10 0 45 None)))
           (at_2024_05_01 10 0 0 None)).
  - vm_compute. reflexivity.
  - vm_compute. reflexivity.
  - intros x Hx. by apply elem_of_nil in Hx.
  - unfold presentable, is_text, is_date, text_or_null, date_or_null.
    split_and!; vm_compute; eauto.
  - vm_compute. reflexivity.
  - vm_compute. reflexivity.
  - apply list_elem_of_here.
  - apply created_doc_active.
  - vm_compute. reflexivity.
  - discriminate.
Defined.

(** ** Freeing a slot *)



(** ** Delete, composed with create *)




Lemma lookup_removed_middle {A} (pre : list A) x post i a :
  (pre ++ post) !! i = Some a →
  ∃ i', (pre ++ x :: post) !! i' = Some a ∧ i' ≠ length pre ∧
        ((i < length pre ∧ i' = i) ∨ (length pre ≤ i ∧ i' = S i)).
Proof.
  intros H. destruct (decide (i < length pre)) as [Hlt|Hge].
  - exists i. rewrite lookup_app_l in H |- * by done.
    split_and!; [done|lia|by left].
  - exists (S i). rewrite lookup_app_r in H |- * by lia.
    replace (S i - length pre) with (S (i - length pre)) by lia.
    split_and!; [done|lia|right; lia].
Qed.

(** X12. A delete keeps both invariants; when it succeeds it has removed one
    document with the identifier and a second delete answers 404; when it
    fails (400 or 404) the store is as it was. *)
Theorem delete_outcomes appointment_id ok (db : store) :
  unique_ids db → no_double_booking db →
  let r := (delete_appointment appointment_id ok db).1 in
  let db1 := (delete_appointment appointment_id ok db).2 in
  unique_ids db1 ∧ no_double_booking db1 ∧
  match r with
  | Ok _ =>
      (∃ pre d post, db = pre ++ d :: post ∧ db1 = pre ++ post ∧
         has_id d (Oid (lower appointment_id))) ∧
      delete_appointment appointment_id ok db1
      = (Raise (HTTPException 404), db1)
  | Raise e => db1 = db ∧ (e = HTTPException 400 ∨ e = HTTPException 404)
  end.
Proof.
  intros Hu Hb r db1. subst r db1. unfold delete_appointment.
  destruct (ObjectId_is_valid appointment_id) eqn:Hv.
  2: { rewrite ObjectId_new_malformed.
       - simpl. split_and!; [done|done|done|by left].
       - intros Hwf%ObjectId_is_valid_spec. congruence. }
  apply ObjectId_is_valid_spec in Hv as Hwf.
  rewrite ObjectId_new_well_formed by done.
  set (oid := Oid (lower appointment_id)).
  destruct (delete_one_cases oid db)
    as [[Hno ->] | (pre & d & post & -> & Hd & Hpre & ->)]; simpl.
  { split_and!; [done|done|done|by right]. }
  assert (∀ e, e ∈ pre ++ post → ¬ has_id e oid) as Hgone.
  { intros e He Hie. apply list_elem_of_lookup in He as [i Hi].
    destruct (lookup_removed_middle pre d post i e Hi)
      as (i' & Hi' & Hne & _).
    apply Hne. apply (Hu i' (length pre) e d oid); try done.
    by rewrite list_lookup_middle. }
  split_and!.
  - intros i j e1 e2 o H1 H2 I1 I2.
    destruct (lookup_removed_middle pre d post i e1 H1)
      as (i' & Hi' & _ & Hii).
    destruct (lookup_removed_middle pre d post j e2 H2)
      as (j' & Hj' & _ & Hjj).
    pose proof (Hu i' j' e1 e2 o Hi' Hj' I1 I2). lia.
  - intros i j e1 e2 t H1 H2 S1 S2 A1 A2.
    destruct (lookup_removed_middle pre d post i e1 H1)
      as (i' & Hi' & _ & Hii).
    destruct (lookup_removed_middle pre d post j e2 H2)
      as (j' & Hj' & _ & Hjj).
    pose proof (Hb i' j' e1 e2 t Hi' Hj' S1 S2 A1 A2). lia.
  - by exists pre, d, post.
  - by rewrite delete_one_absent.
Qed.

Lemma delete_outcomes_witness :
  let r := (delete_appointment "65f0a1b2c3d4e5f601234567" true booked_at_ten).1 in
  let db1 := (delete_appointment "65f0a1b2c3d4e5f601234567" true booked_at_ten).2 in
  unique_ids db1 ∧ no_double_booking db1 ∧
  match r with
  | Ok _ =>
      (∃ pre d post, booked_at_ten = pre ++ d :: post ∧ db1 = pre ++ post ∧
         has_id d (Oid (lower "65f0a1b2c3d4e5f601234567"))) ∧
      delete_appointment "65f0a1b2c3d4e5f601234567" true db1
      = (Raise (HTTPException 404), db1)
  | Raise e =>
      db1 = booked_at_ten ∧ (e = HTTPException 400 ∨ e = HTTPException 404)
  end.
Proof.
  apply (delete_outcomes "65f0a1b2c3d4e5f601234567" true booked_at_ten).
  - apply unique_ids_one.
  - apply no_double_booking_one.
Defined.



(** ** Availability, composed with create *)

Lemma check_availability_valid date y m d (db : store) :
  is_calendar_date date y m d →
  check_availability date db = (Ok (isoformat <$> occupied_on y m d db), db).
Proof.
  intros [Hv ->]. unfold check_availability.
  rewrite fromisoformat_day_start, fromisoformat_day_end by done.
  by rewrite availability_query.
Qed.

Lemma check_availability_lists date y m d (db : store) e dt :
  is_calendar_date date y m d →
  e ∈ db → active e → slot_of e dt → tzinfo dt = None →
  year dt = y → month dt = m → day dt = d →
  check_time_fields (hour dt) (minute dt) (second dt) (microsecond dt) = true →
  ∃ l, check_availability date db = (Ok l, db) ∧ isoformat dt ∈ l.
Proof.
  intros Hdate He Ha Hs _ Hy Hm Hd Ht.
  exists (isoformat <$> occupied_on y m d db).
  split; [by apply check_availability_valid|].
  apply list_elem_of_fmap_2, occupied_on_elem. exists e.
  split_and!; try done. by apply in_day_time.
Qed.

(** X14. Every appointment that is not canceled and whose stored datetime
    (without offset) is on the day asked for is listed, whatever its time of
    day. *)
Theorem availability_lists_the_day date y m d (db : store) e dt :
  is_calendar_date date y m d →
  e ∈ db → active e → slot_of e dt → tzinfo dt = None →
  year dt = y → month dt = m → day dt = d →
  check_time_fields (hour dt) (minute dt) (second dt) (microsecond dt) = true →
  ∃ l, check_availability date db = (Ok l, db) ∧ isoformat dt ∈ l.
Proof. apply check_availability_lists. Qed.

Lemma availability_lists_the_day_witness :
  ∃ l, check_availability "2024-05-01" two_bookings = (Ok l, two_bookings) ∧
       isoformat (at_2024_05_01 11 0 0 None) ∈ l.
Proof.
  apply (availability_lists_the_day "2024-05-01" 2024 5 1 two_bookings
           (created_doc clock id_b (ana (at_2024_05_01 11 0 0 None)))
           (at_2024_05_01 11 0 0 None)); try reflexivity.
  - split; [|reflexivity]. unfold valid_date. vm_compute.
    intuition discriminate.
  - apply list_elem_of_further, list_elem_of_here.
  - apply created_doc_active.
Defined.

(** X15. A booking just made shows, at minute precision, in the availability
    of its day. *)
Theorem create_then_availability now new_id p (db : store) out db1 :
  let dt := AppointmentCreate.datetime_iso p in
  create_appointment now new_id p db = (Ok out, db1) →
  tzinfo dt = None →
  valid_date (year dt) (month dt) (day dt) →
  check_time_fields (hour dt) (minute dt) 0 0 = true →
  ∃ l, check_availability (format_date (year dt) (month dt) (day dt)) db1
       = (Ok l, db1) ∧
       isoformat (truncated dt) ∈ l.
Proof.
  intros dt [_ ->]%create_appointment_Ok_store Htz Hv Ht.
  apply (check_availability_lists _ (year dt) (month dt) (day dt) _
           (created_doc now new_id p) (truncated dt)); try done.
  all: first [apply created_doc_active
             |apply elem_of_app; right; apply list_elem_of_here].
Qed.

Lemma create_then_availability_witness :
  ∃ l, check_availability (format_date 2024 5 1) booked_at_ten
       = (Ok l, booked_at_ten) ∧
       isoformat (truncated (at_2024_05_01 10 0 30 None)) ∈ l.
Proof.
  apply (create_then_availability clock id_a (ana (at_2024_05_01 10 0 30 None))
           [] (created_out clock id_a (ana (at_2024_05_01 10 0 30 None)))
           booked_at_ten).
  - apply create_here.
  - reflexivity.
  - unfold valid_date. vm_compute. intuition discriminate.
  - reflexivity.
Defined.

(** ** The list of appointments *)

Lemma find_all (db : store) : find [] db = db.
Proof.
  unfold find. induction db as [|d db IH]; [done|].
  cbn [List.filter matches forallb]. by rewrite IH.
Qed.

Lemma insert_sorted_perm k (d : doc) l : insert_sorted k d l ≡ₚ d :: l.
Proof.
  induction l as [|e l IH]; [done|]. cbn [insert_sorted].
  destruct (value_leb _ _); [|done]. rewrite IH. apply Permutation_swap.
Qed.

Lemma sort_ascending_perm k (l : list doc) : sort_ascending k l ≡ₚ l.
Proof.
  unfold sort_ascending.
  assert (∀ acc, foldl (λ acc d, insert_sorted k d acc) acc l ≡ₚ acc ++ l)
    as H; [|apply (H [])].
  induction l as [|d l IH]; intros acc; cbn [foldl].
  - by rewrite app_nil_r.
  - rewrite IH, insert_sorted_perm. apply Permutation_middle.
Qed.

Lemma mapM_Ok {A B} (f : A → result B) l :
  (∀ a, a ∈ l → ∃ b, f a = Ok b) →
  ∃ bs, mapM f l = Ok bs ∧ Forall2 (λ a b, f a = Ok b) l bs.
Proof.
  induction l as [|a l IH]; intros H.
  - exists []. split; [done|constructor].
  - destruct (H a) as [b Hb]; [apply list_elem_of_here|].
    destruct IH as (bs & Hbs & HF).
    { intros x Hx. apply H. by apply list_elem_of_further. }
    exists (b :: bs). cbn [mapM]. rewrite Hb, Hbs. split; [done|].
    by constructor.
Qed.

Lemma mapM_Raise {A B} (f : A → result B) l a e :
  a ∈ l → f a = Raise e →
  ∃ e' a', mapM f l = Raise e' ∧ a' ∈ l ∧ f a' = Raise e'.
Proof.
  induction l as [|x l IH]; intros Ha He; [by apply elem_of_nil in Ha|].
  cbn [mapM]. destruct (f x) as [b|e0] eqn:Hx.
  - apply elem_of_cons in Ha as [->|Ha]; [congruence|].
    destruct (IH Ha He) as (e' & a' & -> & Ha' & He').
    exists e', a'. split_and!; [done| |done]. by apply list_elem_of_further.
  - exists e0, x. split_and!; [done| |done]. apply list_elem_of_here.
Qed.

Lemma list_appointments_presentable ok (db : store) :
  (∀ d, d ∈ db → presentable d) →
  ∃ outs,
    list_appointments ok db = (Ok outs, db) ∧
    length outs = length db ∧
    (∀ d, d ∈ db → ∃ out, out ∈ outs ∧ respond d = Ok out) ∧
    (∀ out, out ∈ outs → ∃ d, d ∈ db ∧ respond d = Ok out).
Proof.
  intros Hpres. unfold list_appointments. rewrite find_all.
  set (l := sort_ascending "datetime_iso" db).
  assert (l ≡ₚ db) as Hperm by apply sort_ascending_perm.
  destruct (mapM_Ok respond l) as (outs & -> & HF).
  { intros d Hd. rewrite Hperm in Hd.
    destruct (respond_presentable d (Hpres d Hd)) as (out & Hout & _).
    by exists out. }
  exists outs. split_and!.
  - done.
  - rewrite <- (Forall2_length _ _ _ HF). by rewrite Hperm.
  - intros d Hd. rewrite <- Hperm in Hd.
    apply list_elem_of_lookup in Hd as [i Hi].
    destruct (Forall2_lookup_l _ _ _ _ _ HF Hi) as (out & Ho & Hr).
    exists out. split; [by eapply list_elem_of_lookup_2|done].
  - intros out Ho. apply list_elem_of_lookup in Ho as [i Hi].
    destruct (Forall2_lookup_r _ _ _ _ _ HF Hi) as (d & Hd & Hr).
    exists d. split; [|done]. rewrite <- Hperm.
    by eapply list_elem_of_lookup_2.
Qed.

(** X16. When every stored appointment has its required fields, the list
    returns one representation for each of them, and only those, and leaves
    the store as it is. *)
Theorem list_appointments_all ok (db : store) :
  (∀ d, d ∈ db → presentable d) →
  ∃ outs,
    list_appointments ok db = (Ok outs, db) ∧
    length outs = length db ∧
    (∀ d, d ∈ db → ∃ out, out ∈ outs ∧ respond d = Ok out) ∧
    (∀ out, out ∈ outs → ∃ d, d ∈ db ∧ respond d = Ok out).
Proof. apply list_appointments_presentable. Qed.

Lemma list_appointments_all_witness :
  ∃ outs,
    list_appointments true two_bookings = (Ok outs, two_bookings) ∧
    length outs = length two_bookings ∧
    (∀ d, d ∈ two_bookings → ∃ out, out ∈ outs ∧ respond d = Ok out) ∧
    (∀ out, out ∈ outs → ∃ d, d ∈ two_bookings ∧ respond d = Ok out).
Proof.
  apply (list_appointments_all true two_bookings).
  intros d Hd. each_document Hd; apply created_doc_presentable.
Defined.

(** one appointment whose datetime is null makes the whole list fail *)
Lemma list_appointments_fails ok (db : store) d :
  d ∈ db → d !! "datetime_iso" = Some VNull →
  ∃ e, list_appointments ok db = (Raise e, db) ∧
       (e = KeyError ∨ e = ValidationError).
Proof.
  intros Hd Hnull. unfold list_appointments. rewrite find_all.
  assert (∃ e, respond d = Raise e) as [e He].
  { unfold respond, pop_id. destruct (d !! "_id") as [v|]; [|by eexists].
    cbn [mbind result_bind]. exists ValidationError.
    apply AppointmentOut_new_null_datetime. by rewrite popped_lookup. }
  destruct (mapM_Raise respond (sort_ascending "datetime_iso" db) d e)
    as (e' & d' & -> & _ & He'); [|done|].
  { by rewrite sort_ascending_perm. }
  exists e'. split; [done|]. by apply respond_raises in He'.
Qed.

(** X17. After an update that sets the datetime of an appointment to null,
    the list of appointments fails with an error of the output model. *)
Theorem null_datetime_breaks_list now appointment_id p ok ok' oid
    (pre : store) d post :
  ObjectId_new appointment_id = Ok oid →
  has_id d oid → (∀ e, e ∈ pre → ¬ has_id e oid) →
  AppointmentUpdate.datetime_iso p = Given None →
  let db1 := (update_appointment now appointment_id p ok (pre ++ d :: post)).2 in
  ∃ e, list_appointments ok' db1 = (Raise e, db1) ∧
       (e = KeyError ∨ e = ValidationError).
Proof.
  intros Hid Hd Hpre Hdt db1. subst db1.
  rewrite (update_appointment_applied _ _ _ _ oid); [|done| |done|done].
  2: { intros dt Hdt'. congruence. }
  cbn [snd].
  apply (list_appointments_fails _ _ (set_document now p ∪ d)).
  - apply elem_of_app. right. apply list_elem_of_here.
  - by rewrite updated_lookup, written_datetime, Hdt.
Qed.

Lemma null_datetime_breaks_list_witness :
  let db1 := (update_appointment clock "65f0a1b2c3d4e5f601234567"
                (set_datetime (Given None)) true ([] ++ booked_at_ten)).2 in
  ∃ e, list_appointments true db1 = (Raise e, db1) ∧
       (e = KeyError ∨ e = ValidationError).
Proof.
  apply (null_datetime_breaks_list clock "65f0a1b2c3d4e5f601234567"
           (set_datetime (Given None)) true true id_a []
           (created_doc clock id_a (ana (at_2024_05_01 10 0 30 None))) []).
  - vm_compute. reflexivity.
  - apply created_doc_has_id.
  - intros e He. by apply elem_of_nil in He.
  - reflexivity.
Defined.

Lemma lex_le_trans x1 y1 z1 (c12 c23 c13 : comparison) :
  (c12 ≠ Gt → c23 ≠ Gt → c13 ≠ Gt) →
  lex (x1 ?= y1)%Z c12 ≠ Gt → lex (y1 ?= z1)%Z c23 ≠ Gt →
  lex (x1 ?= z1)%Z c13 ≠ Gt.
Proof.
  intros Hrec.
  destruct (Z.compare_spec x1 y1), (Z.compare_spec y1 z1),
    (Z.compare_spec x1 z1); cbn [lex]; try done; try lia.
Qed.

Lemma datetime_leb_trans a b c :
  datetime_leb a b = true → datetime_leb b c = true → datetime_leb a c = true.
Proof.
  unfold datetime_leb.
  assert (compare_fields a b ≠ Gt → compare_fields b c ≠ Gt →
          compare_fields a c ≠ Gt) as H.
  { unfold compare_fields.
    do 6 apply lex_le_trans.
    destruct (Z.compare_spec (microsecond a) (microsecond b)),
      (Z.compare_spec (microsecond b) (microsecond c)),
      (Z.compare_spec (microsecond a) (microsecond c)); try done; lia. }
  destruct (compare_fields a b), (compare_fields b c), (compare_fields a c);
    try done; intros; exfalso; by apply H.
Qed.

Lemma lex_total x1 y1 (c12 c21 : comparison) :
  (c12 = Gt → c21 ≠ Gt) →
  lex (x1 ?= y1)%Z c12 = Gt → lex (y1 ?= x1)%Z c21 ≠ Gt.
Proof.
  intros Hrec.
  destruct (Z.compare_spec x1 y1), (Z.compare_spec y1 x1); cbn [lex];
    try done; try lia.
Qed.

Lemma datetime_leb_total a b :
  datetime_leb a b = false → datetime_leb b a = true.
Proof.
  unfold datetime_leb.
  assert (compare_fields a b = Gt → compare_fields b a ≠ Gt) as H.
  { unfold compare_fields.
    do 6 apply lex_total.
    destruct (Z.compare_spec (microsecond a) (microsecond b)),
      (Z.compare_spec (microsecond b) (microsecond a)); try done; lia. }
  destruct (compare_fields a b), (compare_fields b a); try done.
  intros _. exfalso. by apply H.
Qed.

Lemma datetime_leb_refl a : datetime_leb a a = true.
Proof.
  unfold datetime_leb, compare_fields. by rewrite !Z.compare_refl.
Qed.


Lemma le_on_dated k (a b : doc) x y :
  a !! k = Some (VDate x) → b !! k = Some (VDate y) →
  le_on k a b ↔ datetime_leb x y = true.
Proof. intros Ha Hb. unfold le_on. by rewrite Ha, Hb. Qed.

Lemma insert_sorted_sorted k (d : doc) l :
  is_date (d !! k) → Forall (λ e : doc, is_date (e !! k)) l →
  StronglySorted (le_on k) l →
  StronglySorted (le_on k) (insert_sorted k d l).
Proof.
  intros [x Hx] Hl Hs. induction Hs as [|e r Hr IH He]; cbn [insert_sorted].
  - repeat constructor.
  - apply Forall_cons in Hl as [[y Hy] Hl].
    destruct (value_leb (e !! k) (d !! k)) eqn:Hed.
    + constructor; [by apply IH|].
      rewrite insert_sorted_perm. by constructor.
    + constructor; [by constructor|].
      assert (le_on k d e) as Hde.
      { rewrite (le_on_dated k d e x y) by done. apply datetime_leb_total.
        by rewrite Hx, Hy in Hed. }
      constructor; [done|].
      rewrite Forall_forall in He, Hl |- *. intros c Hc.
      destruct (Hl c Hc) as [z Hz].
      rewrite (le_on_dated k d c x z) by done.
      apply (datetime_leb_trans x y z).
      * by rewrite <- (le_on_dated k d e x y).
      * rewrite <- (le_on_dated k e c y z) by done. by apply He.
Qed.

Lemma sort_ascending_sorted k (l : list doc) :
  Forall (λ e : doc, is_date (e !! k)) l →
  StronglySorted (le_on k) (sort_ascending k l).
Proof.
  unfold sort_ascending.
  assert (∀ acc, Forall (λ e : doc, is_date (e !! k)) acc →
            StronglySorted (le_on k) acc →
            Forall (λ e : doc, is_date (e !! k)) l →
            StronglySorted (le_on k)
              (foldl (λ acc d, insert_sorted k d acc) acc l)) as H.
  { induction l as [|d l IH]; intros acc Hacc Hs Hl; cbn [foldl]; [done|].
    apply Forall_cons in Hl as [Hd Hl]. apply IH; [| |done].
    - rewrite insert_sorted_perm. by constructor.
    - by apply insert_sorted_sorted. }
  intros Hl. apply H; [constructor|constructor|done].
Qed.

Lemma StronglySorted_lookup_lt {A} (R : A → A → Prop) l i j a b :
  StronglySorted R l → i < j → l !! i = Some a → l !! j = Some b → R a b.
Proof.
  intros Hs. revert i j. induction Hs as [|x l Hl IH Hx]; intros i j Hij Hi Hj.
  - by rewrite lookup_nil in Hi.
  - destruct j as [|j]; [lia|]. cbn in Hj. destruct i as [|i].
    + injection Hi as <-. rewrite Forall_forall in Hx. apply Hx.
      by eapply list_elem_of_lookup_2.
    + cbn in Hi. apply (IH i j); [lia|done|done].
Qed.

Lemma bind_Ok_inv {A B} (m : result A) (f : A → result B) b :
  m ≫= f = Ok b → ∃ a, m = Ok a ∧ f a = Ok b.
Proof. destruct m as [a|e]; [by exists a|discriminate]. Qed.

Lemma respond_Ok_datetime d out :
  respond d = Ok out → slot_of d (AppointmentOut.datetime_iso out).
Proof.
  unfold respond, pop_id. destruct (d !! "_id") as [v|]; [|discriminate].
  cbn [mbind result_bind]. unfold AppointmentOut_new. intros H.
  do 5 (apply bind_Ok_inv in H as (? & _ & H)).
  apply bind_Ok_inv in H as (when & Hx & H).
  do 5 (apply bind_Ok_inv in H as (? & _ & H)).
  injection H as <-. cbn [AppointmentOut.datetime_iso].
  unfold required_datetime in Hx. rewrite popped_lookup in Hx by done.
  unfold slot_of. destruct (d !! "datetime_iso") as [[]|]; congruence.
Qed.

Lemma mapM_Ok_inv {A B} (f : A → result B) l bs :
  mapM f l = Ok bs → Forall2 (λ a b, f a = Ok b) l bs.
Proof.
  revert bs. induction l as [|a l IH]; intros bs; cbn [mapM].
  - intros [= <-]. constructor.
  - intros (b & Hb & H)%bind_Ok_inv.
    apply bind_Ok_inv in H as (bs' & Hbs & [= <-]).
    constructor; [done|by apply IH].
Qed.

(** X18. A list that is returned is in ascending order of datetime. *)
Theorem list_appointments_ascending ok (db : store) outs db1 i j a b :
  list_appointments ok db = (Ok outs, db1) →
  i ≤ j → outs !! i = Some a → outs !! j = Some b →
  datetime_leb (AppointmentOut.datetime_iso a) (AppointmentOut.datetime_iso b)
  = true.
Proof.
  unfold list_appointments. rewrite find_all. intros [= Hm _] Hij Ha Hb.
  apply mapM_Ok_inv in Hm.
  destruct (Forall2_lookup_r _ _ _ _ _ Hm Ha) as (da & Hda & Hra).
  destruct (Forall2_lookup_r _ _ _ _ _ Hm Hb) as (db' & Hdb & Hrb).
  apply respond_Ok_datetime in Hra, Hrb.
  destruct (decide (i = j)) as [->|Hne].
  { assert (a = b) as -> by congruence. apply datetime_leb_refl. }
  rewrite <- (le_on_dated "datetime_iso" da db') by done.
  apply (StronglySorted_lookup_lt _ (sort_ascending "datetime_iso" db) i j);
    [|lia|done|done].
  apply sort_ascending_sorted. rewrite Forall_forall. intros d Hd.
  rewrite <- sort_ascending_perm in Hd.
  apply list_elem_of_lookup in Hd as [n Hn].
  destruct (Forall2_lookup_l _ _ _ _ _ Hm Hn) as (out & _ & Hr).
  apply respond_Ok_datetime in Hr. by eexists.
Qed.

Lemma list_two_bookings :
  list_appointments true two_bookings
  = (Ok [created_out clock id_a (ana (at_2024_05_01 10 0 30 None));
         created_out clock id_b (ana (at_2024_05_01 11 0 0 None))],
     two_bookings).
Proof.
  unfold list_appointments. rewrite find_all.
  assert (sort_ascending "datetime_iso" two_bookings = two_bookings) as ->.
  { unfold sort_ascending, two_bookings. cbn [foldl insert_sorted].
    assert (value_leb
              (created_doc clock id_a (ana (at_2024_05_01 10 0 30 None))
                 !! "datetime_iso")
              (created_doc clock id_b (ana (at_2024_05_01 11 0 0 None))
                 !! "datetime_iso") = true) as -> by (vm_compute; reflexivity).
    reflexivity. }
  unfold two_bookings. cbn [mapM]. by rewrite !respond_created.
Qed.

Lemma list_appointments_ascending_witness :
  datetime_leb
    (AppointmentOut.datetime_iso
       (created_out clock id_a (ana (at_2024_05_01 10 0 30 None))))
    (AppointmentOut.datetime_iso
       (created_out clock id_b (ana (at_2024_05_01 11 0 0 None)))) = true.
Proof.
  apply (list_appointments_ascending true two_bookings _ two_bookings 0 1
           _ _ list_two_bookings); [lia|reflexivity|reflexivity].
Defined.

(** ** The diagnostic endpoint *)

Lemma substring_prefix n (s : string) :
  String.length (String.substring 0 n s) ≤ n ∧
  ∃ rest, s = String.substring 0 n s +:+ rest.
Proof.
  revert s. induction n as [|n IH]; intros s.
  - destruct s; (split; [cbn; lia|by eexists]).
  - destruct s as [|c s]; [split; [cbn; lia|by exists ""]|].
    destruct (IH s) as [Hl [rest Hr]]. cbn [String.substring String.length].
    split; [lia|]. exists rest. rewrite append_String. by f_equal.
Qed.

(** X19. What [GET /test] reports: the two database settings reflect the
    environment only, never the handle; the connection status says whether a
    handle exists; at most ten collection names; at most fifty characters of
    an exception text; the initial status text is never returned. *)
Theorem test_database_report (db : option Database)
    (getenv : string → option string) :
  let r := test_database db getenv in
  backend r = "✅ Running" ∧
  database_url r
  = Some (if getenv_truthy getenv "DATABASE_URL" then "✅ Set" else "❌ Not Set") ∧
  database_name r
  = Some (if getenv_truthy getenv "DATABASE_NAME" then "✅ Set" else "❌ Not Set") ∧
  (connection_status r = "Connected" ↔ is_Some db) ∧
  length (collections r) ≤ 10 ∧
  database r ≠ "❌ Not Available" ∧
  match db with
  | None =>
      collections r = [] ∧ database r = "⚠️  Available but not initialized"
  | Some h =>
      match db_list_collection_names h with
      | inr names =>
          collections r = take 10 names ∧
          database r = "✅ Connected & Working"
      | inl e =>
          collections r = [] ∧
          ∃ msg rest, database r = "⚠️  Connected but Error: " +:+ msg ∧
                      String.length msg ≤ 50 ∧ e = msg +:+ rest
      end
  end.
Proof.
  intros r. subst r. unfold test_database.
  destruct db as [[name [e|names]]|]; cbn.
  - split_and!; try done; [lia|].
    destruct (substring_prefix 50 e) as [Hl [rest Hr]].
    by exists (String.substring 0 50 e), rest.
  - split_and!; try done. rewrite length_take. lia.
  - split_and!; try done. lia.
Qed.

(** ** A required field set to null *)






(** ** Create, then list *)


